(** * ShippingProfileService (packages/medusa/src/services/shipping-profile.js)

    A shallow embedding of the shipping-profile service.  JavaScript values
    the service inspects dynamically are kept dynamic ([JsValue]); the
    document store behind [profileModel_] is an explicit world that every
    method threads, together with a chronological record of the calls made
    to it and a schedule of storage faults.  A method is a function from a
    world to an outcome (a returned value or a thrown error, a rejected
    promise being a thrown error of the awaiting caller) and the next
    world. *)

From Stdlib Require Import List String ZArith Bool Lia.
Import ListNotations.
Open Scope string_scope.

(** ** JavaScript values *)

#[local] Set Warnings "-register-all".

Inductive JsValue : Type :=
| JUndefined
| JNull
| JBool (b : bool)
| JNum (z : Z)
| JStr (s : string)
| JArr (elems : list JsValue)
| JObj (props : list (string * JsValue)).

Definition JsObject : Type := list (string * JsValue).

(** ToBoolean: [undefined], [null], [false], [0] and the empty string are
    falsy; every array and every object is truthy, the empty ones too.
    (Numbers are integers here; [NaN] is not represented.) *)
Definition truthy (v : JsValue) : bool :=
  match v with
  | JUndefined | JNull => false
  | JBool b => b
  | JNum z => negb (z =? 0)%Z
  | JStr s => negb (s =? "")
  | JArr _ | JObj _ => true
  end.

(** Property read [o.k]: [undefined] when the object has no such key. *)
Fixpoint get_prop (k : string) (o : JsObject) : JsValue :=
  match o with
  | [] => JUndefined
  | (k', v) :: rest => if k' =? k then v else get_prop k rest
  end.

(** [arr.find(pred)] yields the first element satisfying [pred], or
    [undefined]; the service only ever searches arrays of id strings. *)
Definition js_find (pred : string -> bool) (arr : list string) : JsValue :=
  match find pred arr with
  | Some s => JStr s
  | None => JUndefined
  end.

(** [arr.includes(x)] on an array of strings. *)
Definition includes (x : string) (arr : list string) : bool :=
  existsb (fun y => y =? x) arr.

(** ** Errors *)

Inductive MedusaErrorType : Type :=
| INVALID_ARGUMENT
| INVALID_DATA
| NOT_FOUND
| DB_ERROR.

(** What a method can throw: a [MedusaError] of the service's own, a
    [TypeError] of the JavaScript runtime, the raw error of a rejected store
    call, or whatever a collaborating service rejects with. *)
Inductive Error : Type :=
| MedusaError (type : MedusaErrorType) (message : string)
| TypeError (message : string)
| StoreFault (message : string)
| ServiceError (message : string).

(** [err.message]. *)
Definition message_of (e : Error) : string :=
  match e with
  | MedusaError _ m | TypeError m | StoreFault m | ServiceError m => m
  end.

Inductive outcome (A : Type) : Type :=
| Return (a : A)
| Throw (e : Error).
Arguments Return {A} a.
Arguments Throw {A} e.

(** ** Documents *)

Module Profile.
Record t : Type := mk {
  _id : string;
  name : string;
  products : list string;
  shipping_options : list string;
  metadata : JsObject
}.
End Profile.

Module Product.
Record t : Type := mk { _id : string }.
End Product.

Module ShippingOption.
Record t : Type := mk { _id : string; name : string }.
End ShippingOption.

(** A cart line item's [content] is either one sub-item or an array of
    sub-items ([Array.isArray(next.content)] tells them apart); a sub-item
    carries its [product]. *)
Module Cart.
Record SubItem : Type := mkSub { product : Product.t }.
Inductive Content : Type :=
| Single (item : SubItem)
| Multiple (subitems : list SubItem).
Record LineItem : Type := mkItem { content : Content }.
Record t : Type := mk { items : list LineItem }.
End Cart.

(** ** The document store

    The Mongoose model [shippingProfileModel] and the database behind it are
    not part of the service's source file.  Section 6 of the specification
    gives the store's contract: [find], [findOne], [updateOne] and
    [deleteOne] over selectors with equality and set-membership predicates. *)

(** The selectors the service builds: [{ _id: id }],
    [{ shipping_options: id }] and [{ products: { $in: ids } }]. *)
Inductive Selector : Type :=
| ById (id : string)
| ByShippingOption (id : string)
| ByProductsIn (ids : list string).

Inductive Field : Type := products_field | shipping_options_field.

(** The patches the service builds: [{ $set: fields }],
    [{ $push: { field: v } }] and [{ $pull: { field: v } }]. *)
Inductive Patch : Type :=
| Set_ (fields : JsObject)
| Push (f : Field) (v : string)
| Pull (f : Field) (v : string).

Inductive StoreCall : Type :=
| Find (s : Selector)
| FindOne (s : Selector)
| UpdateOne (s : Selector) (p : Patch)
| DeleteOne (s : Selector).

(** The acknowledgement of a write: how many documents matched. *)
Record WriteResult : Type := mkWrite { n : nat }.

(** [docs] is the collection, [faults] the outcomes scheduled for the coming
    store calls ([Some msg]: the call rejects with an error whose message is
    [msg]; [None], or an exhausted schedule: the call goes through), [log]
    the calls made so far, oldest first. *)
Record World : Type := mkWorld {
  docs : list Profile.t;
  faults : list (option string);
  log : list StoreCall
}.

Definition M (A : Type) : Type := World -> outcome A * World.

Definition ret {A} (a : A) : M A := fun w => (Return a, w).
Definition throw {A} (e : Error) : M A := fun w => (Throw e, w).
Definition lift {A} (o : outcome A) : M A := fun w => (o, w).

Definition bind {A B} (m : M A) (k : A -> M B) : M B :=
  fun w =>
    match m w with
    | (Return a, w') => k a w'
    | (Throw e, w') => (Throw e, w')
    end.

Notation "x <- m ;; k" := (bind m (fun x => k))
  (at level 61, m at next level, right associativity).
Notation "m ;;; k" := (bind m (fun _ => k))
  (at level 61, right associativity).

(** [try { m } catch (error) { handler }]. *)
Definition try_catch {A} (m : M A) (handler : Error -> M A) : M A :=
  fun w =>
    match m w with
    | (Return a, w') => (Return a, w')
    | (Throw e, w') => handler e w'
    end.

(** The outcome of [m] as a value, for a [try] block that is followed by
    more code. *)
Definition try_ {A} (m : M A) : M (outcome A) :=
  fun w => let (o, w') := m w in (Return o, w').

(** [.catch(err => { throw new MedusaError(DB_ERROR, err.message) })]. *)
Definition catch_db {A} (m : M A) : M A :=
  try_catch m (fun err => throw (MedusaError DB_ERROR (message_of err))).

(** Modelled from the spec: the selector predicates of the document store,
    which is not in the source file.  Equality on [_id]; an array field
    equals a scalar when it contains it; [$in] holds when the field shares
    an element with the list. *)
Definition matches (s : Selector) (p : Profile.t) : bool :=
  match s with
  | ById id => Profile._id p =? id
  | ByShippingOption id => includes id (Profile.shipping_options p)
  | ByProductsIn ids =>
      existsb (fun x => includes x ids) (Profile.products p)
  end.

(** Modelled from the spec: [$push] of the document store appends the value
    to the array field. *)
Definition push_field (f : Field) (v : string) (p : Profile.t) : Profile.t :=
  match f with
  | products_field =>
      Profile.mk (Profile._id p) (Profile.name p) (Profile.products p ++ [v])
                 (Profile.shipping_options p) (Profile.metadata p)
  | shipping_options_field =>
      Profile.mk (Profile._id p) (Profile.name p) (Profile.products p)
                 (Profile.shipping_options p ++ [v]) (Profile.metadata p)
  end.

(** Modelled from the spec: [$pull] of the document store removes every
    occurrence of the value from the array field. *)
Definition pull (v : string) (arr : list string) : list string :=
  filter (fun x => negb (x =? v)) arr.

Definition pull_field (f : Field) (v : string) (p : Profile.t) : Profile.t :=
  match f with
  | products_field =>
      Profile.mk (Profile._id p) (Profile.name p) (pull v (Profile.products p))
                 (Profile.shipping_options p) (Profile.metadata p)
  | shipping_options_field =>
      Profile.mk (Profile._id p) (Profile.name p) (Profile.products p)
                 (pull v (Profile.shipping_options p)) (Profile.metadata p)
  end.

(** Modelled from the spec: [updateOne] of the document store rewrites the
    first document matching the selector, and none when nothing matches. *)
Fixpoint update_first (s : Selector) (g : Profile.t -> Profile.t)
    (ds : list Profile.t) : list Profile.t :=
  match ds with
  | [] => []
  | d :: rest => if matches s d then g d :: rest else d :: update_first s g rest
  end.

(** Modelled from the spec: [deleteOne] of the document store drops the
    first document matching the selector. *)
Fixpoint delete_first (s : Selector) (ds : list Profile.t) : list Profile.t :=
  match ds with
  | [] => []
  | d :: rest => if matches s d then rest else d :: delete_first s rest
  end.

Definition count_matching (s : Selector) (ds : list Profile.t) : nat :=
  if existsb (matches s) ds then 1 else 0.

(** Modelled from the spec: one round trip to the document store.  The call
    is logged, the next scheduled outcome is consumed, and either the call
    rejects and the collection is untouched, or [run] reads and rewrites the
    collection. *)
Definition store_call {A} (c : StoreCall)
    (run : list Profile.t -> A * list Profile.t) : M A :=
  fun w =>
    match faults w with
    | Some msg :: later =>
        (Throw (StoreFault msg), mkWorld (docs w) later (log w ++ [c]))
    | None :: later =>
        let (a, ds) := run (docs w) in
        (Return a, mkWorld ds later (log w ++ [c]))
    | [] =>
        let (a, ds) := run (docs w) in
        (Return a, mkWorld ds [] (log w ++ [c]))
    end.

(** Modelled from the spec: [find(selector)], [findOne(selector)] and
    [deleteOne(selector)] of the document store; [findOne] answers [null]
    ([None]) when nothing matches. *)
Definition model_find (s : Selector) : M (list Profile.t) :=
  store_call (Find s) (fun ds => (filter (matches s) ds, ds)).

Definition model_findOne (s : Selector) : M (option Profile.t) :=
  store_call (FindOne s) (fun ds => (find (matches s) ds, ds)).

Definition model_deleteOne (s : Selector) : M WriteResult :=
  store_call (DeleteOne s)
    (fun ds => (mkWrite (count_matching s ds), delete_first s ds)).

(** ** The service *)

(** What [Validator.objectId().validate(rawId)] answers. *)
Record ValidationResult : Type := mkValidation {
  value : string;
  error : option string
}.

(** The value [fetchCartOptions] folds over the matched profiles: without an
    initial value the accumulator starts as the first profile document, and
    only a call of [concat] on an array yields an array. *)
Inductive ReduceValue : Type :=
| RProfile (p : Profile.t)
| RArray (ids : list string).

(** [arr.reduce(callback)], no initial value: the first element seeds the
    accumulator and the callback runs on the others; an empty array is a
    [TypeError]. *)
Fixpoint reduce_from {A V} (callback : V -> A -> outcome V) (acc : V)
    (rest : list A) : outcome V :=
  match rest with
  | [] => Return acc
  | next :: rest' =>
      match callback acc next with
      | Return acc' => reduce_from callback acc' rest'
      | Throw e => Throw e
      end
  end.

Definition reduce_no_initial {A V} (inj : A -> V)
    (callback : V -> A -> outcome V) (arr : list A) : outcome V :=
  match arr with
  | [] => Throw (TypeError "Reduce of empty array with no initial value")
  | first :: rest => reduce_from callback (inj first) rest
  end.

(** A property of a decorated profile holds either a value picked from the
    profile document or the records an expansion has put in its place. *)
Inductive DecoratedValue : Type :=
| Picked (v : JsValue)
| ProductRecords (records : list Product.t)
| OptionRecords (records : list ShippingOption.t).

Definition Decorated : Type := list (string * DecoratedValue).

(** Property read [o.k] on a decorated profile; [None] is [undefined]. *)
Fixpoint read (k : string) (o : Decorated) : option DecoratedValue :=
  match o with
  | [] => None
  | (k', v) :: rest => if k' =? k then Some v else read k rest
  end.

(** Property assignment [o.k = v]: an existing key keeps its place, a new
    one comes last. *)
Fixpoint assign (k : string) (v : DecoratedValue) (o : Decorated)
    : Decorated :=
  match o with
  | [] => [(k, v)]
  | (k', v') :: rest =>
      if k' =? k then (k, v) :: rest else (k', v') :: assign k v rest
  end.

(** [Promise.all(arr.map(f))]: the results in the order of [arr], or a
    rejection as soon as one element is rejected.  The collaborators settle
    at once here, so of several rejections the first in array order is the
    one that is seen. *)
Fixpoint promise_all_map {A B} (f : A -> outcome B) (arr : list A)
    : outcome (list B) :=
  match arr with
  | [] => Return []
  | x :: rest =>
      match f x with
      | Throw e => Throw e
      | Return b =>
          match promise_all_map f rest with
          | Return bs => Return (b :: bs)
          | Throw e => Throw e
          end
      end
  end.

(** ** A sample deployment

    Identifiers are the 12-character strings (one of the two forms an
    ObjectId can be cast from); two profiles, "default1" offering
    "Free Shipping" for the first product and "default2" offering
    "Free French Shipping" for the second, and a third profile without
    products or options. *)

Module Sample.

Definition objectId_validate (rawId : string) : ValidationResult :=
  if Nat.eqb (String.length rawId) 12
  then mkValidation rawId None
  else mkValidation rawId (Some "ObjectId is not valid").

Definition productService_retrieve (productId : string)
    : outcome Product.t :=
  if Nat.eqb (String.length productId) 12
  then Return (Product.mk productId)
  else Throw (MedusaError INVALID_ARGUMENT
                "The productId could not be casted to an ObjectId").

Definition freeShipping : ShippingOption.t :=
  ShippingOption.mk "option-free1" "Free Shipping".

Definition freeFrenchShipping : ShippingOption.t :=
  ShippingOption.mk "option-fran2" "Free French Shipping".

Definition shippingOptionService_retrieve (optionId : string)
    : outcome ShippingOption.t :=
  if optionId =? "option-free1" then Return freeShipping
  else if optionId =? "option-fran2" then Return freeFrenchShipping
  else Throw (MedusaError NOT_FOUND "Shipping Option was not found").

(** The French option is refused to carts without items; every other
    known option is offered. *)
Definition shippingOptionService_validateCartOption (optionId : string)
    (cart : Cart.t) : outcome ShippingOption.t :=
  match optionId =? "option-fran2", Cart.items cart with
  | true, [] =>
      Throw (MedusaError INVALID_DATA
               "The shipping option is not available for the cart")
  | _, _ => shippingOptionService_retrieve optionId
  end.

(** A validation that refuses the French option to every cart and offers
    every other known option. *)
Definition validateCartOption_no_french (optionId : string) (cart : Cart.t)
    : outcome ShippingOption.t :=
  if optionId =? "option-fran2"
  then Throw (MedusaError INVALID_DATA
                "The shipping option is not available for the cart")
  else shippingOptionService_retrieve optionId.

Definition apply_set (fields : JsObject) (p : Profile.t) : Profile.t :=
  match get_prop "name" fields with
  | JStr s =>
      Profile.mk (Profile._id p) s (Profile.products p)
                 (Profile.shipping_options p) (Profile.metadata p)
  | _ => p
  end.

(** A [pick] for the five top-level fields of a profile document. *)
Definition pick (p : Profile.t) (paths : list string) : Decorated :=
  flat_map
    (fun path =>
       if path =? "_id" then [("_id", Picked (JStr (Profile._id p)))]
       else if path =? "name" then [("name", Picked (JStr (Profile.name p)))]
       else if path =? "products"
       then [("products", Picked (JArr (map JStr (Profile.products p))))]
       else if path =? "shipping_options"
       then [("shipping_options",
              Picked (JArr (map JStr (Profile.shipping_options p))))]
       else if path =? "metadata"
       then [("metadata", Picked (JObj (Profile.metadata p)))]
       else [])
    paths.

Definition default1 : Profile.t :=
  Profile.mk "profile-aaaa" "default1" ["product-0001"] ["option-free1"] [].

Definition default2 : Profile.t :=
  Profile.mk "profile-bbbb" "default2" ["product-0002"] ["option-fran2"] [].

Definition spare : Profile.t :=
  Profile.mk "profile-cccc" "spare" [] [] [].

Definition world : World := mkWorld [default1; default2; spare] [] [].

(** The same collection behind a store whose next call fails. *)
Definition faulty_world : World :=
  mkWorld [default1; default2; spare] [Some "connection reset"] [].

Definition item (productId : string) : Cart.LineItem :=
  Cart.mkItem (Cart.Single (Cart.mkSub (Product.mk productId))).

Definition bundle (productIds : list string) : Cart.LineItem :=
  Cart.mkItem
    (Cart.Multiple (map (fun id => Cart.mkSub (Product.mk id)) productIds)).

Definition cart_both : Cart.t :=
  Cart.mk [item "product-0001"; item "product-0002"].

Definition cart_unmatched : Cart.t := Cart.mk [item "product-0009"].

Definition cart_mixed : Cart.t :=
  Cart.mk [item "product-0001";
           bundle ["product-0002"; "product-0001"; "product-0003"];
           item "product-0003"].

End Sample.

Section ShippingProfileService.

#[local] Set Default Proof Using "Type".

(** The schema of [Validator.objectId()] (medusa-core-utils). *)
Variable objectId_validate : string -> ValidationResult.

(** [productService_.retrieve] and the two operations of
    [shippingOptionService_]; none of them touches the profile store. *)
Variable productService_retrieve : string -> outcome Product.t.
Variable shippingOptionService_retrieve : string -> outcome ShippingOption.t.
Variable shippingOptionService_validateCartOption :
  string -> Cart.t -> outcome ShippingOption.t.

(** How the store applies [{ $set: fields }] to a document (schema casting
    and validators are Mongoose's business). *)
Variable apply_set : JsObject -> Profile.t -> Profile.t.

(** [_.pick(object, paths)] of lodash. *)
Variable pick : Profile.t -> list string -> Decorated.

Definition apply_patch (p : Patch) : Profile.t -> Profile.t :=
  match p with
  | Set_ fields => apply_set fields
  | Push f v => push_field f v
  | Pull f v => pull_field f v
  end.

(** Modelled from the spec: [updateOne(selector, patch, options)] of the
    document store. *)
Definition model_updateOne (s : Selector) (p : Patch) : M WriteResult :=
  store_call (UpdateOne s p)
    (fun ds => (mkWrite (count_matching s ds),
                update_first s (apply_patch p) ds)).

(** [validateId_] (lines 30-41). *)
Definition validateId_ (rawId : string) : outcome string :=
  let r := objectId_validate rawId in
  match error r with
  | Some _ =>
      Throw (MedusaError INVALID_ARGUMENT
               "The profileId could not be casted to an ObjectId")
  | None => Return (value r)
  end.

(** [list] (lines 47-49). *)
Definition list_ (selector : Selector) : M (list Profile.t) :=
  model_find selector.

(** [retrieve] (lines 57-73); only the [findOne] call carries the
    [DB_ERROR] wrapper. *)
Definition retrieve (profileId : string) : M Profile.t :=
  validatedId <- lift (validateId_ profileId) ;;
  profile <- catch_db (model_findOne (ById validatedId)) ;;
  match profile with
  | None =>
      throw (MedusaError NOT_FOUND
               ("Shipping Profile with " ++ profileId ++ " was not found"))
  | Some profile => ret profile
  end.

(** [update] (lines 84-117); the guards test the truthiness of the three
    entries of the update object.  The [runValidators] option is left to
    [apply_set]. *)
Definition update (profileId : string) (update : JsObject) : M WriteResult :=
  validatedId <- lift (validateId_ profileId) ;;
  if truthy (get_prop "metadata" update) then
    throw (MedusaError INVALID_DATA
             "Use setMetadata to update metadata fields")
  else if truthy (get_prop "products" update) then
    throw (MedusaError INVALID_DATA
             "Use addProduct, removeProduct to update the products field")
  else if truthy (get_prop "shipping_options" update) then
    throw (MedusaError INVALID_DATA
             "Use addShippingOption, removeShippingOption to update the shipping_options field")
  else
    catch_db (model_updateOne (ById validatedId) (Set_ update)).

(** [delete] (lines 125-137).  The [try] block holds the retrieval alone; its [catch] returns
    [Promise.resolve()] ([None] here) whatever was thrown.  The removal
    comes after the block; its acknowledgement is [Some]. *)
Definition delete (profileId : string) : M (option WriteResult) :=
  attempt <- try_ (retrieve profileId) ;;
  match attempt with
  | Throw error => ret None
  | Return profile =>
      r <- catch_db (model_deleteOne (ById (Profile._id profile))) ;;
      ret (Some r)
  end.

(** [addProduct] (lines 146-160); ids are strings, [===] is string
    equality, and the guard tests the truthiness of what [find] returns.
    The store call has no [catch]. *)
Definition addProduct (profileId productId : string)
    : M (option WriteResult) :=
  profile <- retrieve profileId ;;
  product <- lift (productService_retrieve productId) ;;
  if truthy (js_find (fun p => p =? Product._id product)
                     (Profile.products profile))
  then ret None
  else
    r <- model_updateOne (ById (Profile._id profile))
           (Push products_field (Product._id product)) ;;
    ret (Some r).

(** [removeShippingOption] (lines 199-206); the update is addressed by the
    id as given, not by the validated one. *)
Definition removeShippingOption (profileId optionId : string)
    : M WriteResult :=
  profile <- retrieve profileId ;;
  model_updateOne (ById profileId) (Pull shipping_options_field optionId).

(** [addShippingOption] (lines 169-191); the option is detached from the
    first profile the store reports as holding it. *)
Definition addShippingOption (profileId optionId : string)
    : M (option WriteResult) :=
  profile <- retrieve profileId ;;
  shippingOption <- lift (shippingOptionService_retrieve optionId) ;;
  if truthy (js_find (fun o => o =? ShippingOption._id shippingOption)
                     (Profile.shipping_options profile))
  then ret None
  else
    profiles <- list_ (ByShippingOption (ShippingOption._id shippingOption)) ;;
    match profiles with
    | first :: _ =>
        removeShippingOption (Profile._id first)
          (ShippingOption._id shippingOption) ;;;
        ret tt
    | [] => ret tt
    end ;;;
    r <- model_updateOne (ById profileId)
           (Push shipping_options_field (ShippingOption._id shippingOption)) ;;
    ret (Some r).

(** [removeProduct] (lines 214-226). *)
Definition removeProduct (profileId productId : string)
    : M (option WriteResult) :=
  profile <- retrieve profileId ;;
  if negb (truthy (js_find (fun p => p =? productId)
                           (Profile.products profile)))
  then ret None
  else
    r <- model_updateOne (ById (Profile._id profile))
           (Pull products_field productId) ;;
    ret (Some r).

(** [if (!acc.includes(id)) acc.push(id)]. *)
Definition push_unless_included (acc : list string) (id : string)
    : list string :=
  if negb (includes id acc) then acc ++ [id] else acc.

(** [getProductsInCart_] (lines 261-277). *)
Definition getProductsInCart_ (cart : Cart.t) : list string :=
  fold_left
    (fun acc next =>
       match Cart.content next with
       | Cart.Multiple subitems =>
           fold_left
             (fun acc sub =>
                push_unless_included acc (Product._id (Cart.product sub)))
             subitems acc
       | Cart.Single item =>
           push_unless_included acc (Product._id (Cart.product item))
       end)
    (Cart.items cart) [].

(** [(acc, next) => acc.concat(next.shipping_options)]: a profile document
    has no [concat] method. *)
Definition concat_options (acc : ReduceValue) (next : Profile.t)
    : outcome ReduceValue :=
  match acc with
  | RArray ids => Return (RArray (ids ++ Profile.shipping_options next))
  | RProfile _ => Throw (TypeError "acc.concat is not a function")
  end.

(** Lines 292-303: every option id is validated against the cart, a
    rejected validation becomes [null], and the [null]s are filtered out
    of the settled array. *)
Definition validate_or_null (cart : Cart.t) (oId : string)
    : option ShippingOption.t :=
  match shippingOptionService_validateCartOption oId cart with
  | Return option => Some option
  | Throw err => None
  end.

Definition filter_non_null {A} (options : list (option A)) : list A :=
  flat_map (fun o => match o with Some x => [x] | None => [] end) options.

Definition validateOptions (cart : Cart.t) (optionIds : list string)
    : list ShippingOption.t :=
  filter_non_null (map (validate_or_null cart) optionIds).

(** [optionIds.map(...)], [Promise.all] and the final [filter]: only an
    array has [map]. *)
Definition settle_options (cart : Cart.t) (optionIds : ReduceValue)
    : M (list ShippingOption.t) :=
  match optionIds with
  | RArray optionIds => ret (validateOptions cart optionIds)
  | RProfile _ => throw (TypeError "optionIds.map is not a function")
  end.

(** [fetchCartOptions] (lines 285-304); the [reduce] has no initial
    value. *)
Definition fetchCartOptions (cart : Cart.t) : M (list ShippingOption.t) :=
  let products := getProductsInCart_ cart in
  profiles <- list_ (ByProductsIn products) ;;
  optionIds <- lift (reduce_no_initial RProfile concat_options profiles) ;;
  settle_options cart optionIds.

(** [decorate] (lines 235-254); [expandFields] defaults to the empty array.
    The products are expanded first, and a rejection there ends the call
    before the shipping options are looked at. *)
Definition decorate (profile : Profile.t) (fields expandFields : list string)
    : outcome Decorated :=
  let requiredFields := ["_id"; "metadata"] in
  let decorated := pick profile (fields ++ requiredFields) in
  match
    (if includes "products" expandFields then
       match promise_all_map productService_retrieve
               (Profile.products profile) with
       | Return records =>
           Return (assign "products" (ProductRecords records) decorated)
       | Throw e => Throw e
       end
     else Return decorated)
  with
  | Throw e => Throw e
  | Return decorated =>
      if includes "shipping_options" expandFields then
        match promise_all_map shippingOptionService_retrieve
                (Profile.shipping_options profile) with
        | Return records =>
            Return (assign "shipping_options" (OptionRecords records)
                      decorated)
        | Throw e => Throw e
        end
      else Return decorated
  end.

(** [setMetadata] (lines 313-329). *)
Definition setMetadata (profileId : string) (key value : JsValue)
    : M WriteResult :=
  validatedId <- lift (validateId_ profileId) ;;
  match key with (* typeof key !== "string" *)
  | JStr key =>
      let keyPath := "metadata." ++ key in
      catch_db (model_updateOne (ById validatedId) (Set_ [(keyPath, value)]))
  | _ =>
      throw (MedusaError INVALID_ARGUMENT
               "Key type is invalid. Metadata keys must be strings")
  end.

(** The product ids a cart refers to, line item by line item, in either
    shape of [content]. *)
Definition item_product_ids (item : Cart.LineItem) : list string :=
  match Cart.content item with
  | Cart.Multiple subitems =>
      map (fun sub => Product._id (Cart.product sub)) subitems
  | Cart.Single sub => [Product._id (Cart.product sub)]
  end.

Definition referenced_product_ids (cart : Cart.t) : list string :=
  flat_map item_product_ids (Cart.items cart).

Inductive refers_to (cart : Cart.t) (id : string) : Prop :=
| refers_single (item : Cart.LineItem) (sub : Cart.SubItem) :
    In item (Cart.items cart) ->
    Cart.content item = Cart.Single sub ->
    Product._id (Cart.product sub) = id ->
    refers_to cart id
| refers_multiple (item : Cart.LineItem) (subitems : list Cart.SubItem)
    (sub : Cart.SubItem) :
    In item (Cart.items cart) ->
    Cart.content item = Cart.Multiple subitems ->
    In sub subitems ->
    Product._id (Cart.product sub) = id ->
    refers_to cart id.

(** The profiles whose option list holds [oid]; an option is exclusive
    when at most one profile holds it. *)
Definition holders (oid : string) (ds : list Profile.t) : list Profile.t :=
  filter (matches (ByShippingOption oid)) ds.

Definition exclusive (oid : string) (ds : list Profile.t) : Prop :=
  List.length (holders oid ds) <= 1.

Definition unique_ids (ds : list Profile.t) : Prop :=
  NoDup (map Profile._id ds).

(** Whether the profile stored under [profileId] holds [oid]. *)
Definition profile_holds (profileId oid : string) (ds : list Profile.t)
    : bool :=
  match find (matches (ById profileId)) ds with
  | Some p => includes oid (Profile.shipping_options p)
  | None => false
  end.

(** Every id under which a profile is stored passes the validator
    unchanged. *)
Definition stored_ids_valid (ds : list Profile.t) : Prop :=
  forall id, In id (map Profile._id ds) ->
             error (objectId_validate id) = None /\
             value (objectId_validate id) = id.

(** The profiles the store hands to [fetchCartOptions]. *)
Definition matched_profiles (cart : Cart.t) (w : World) : list Profile.t :=
  filter (matches (ByProductsIn (getProductsInCart_ cart))) (docs w).

(** The option ids of the matched profiles, profile by profile: the
    candidates the method is meant to validate. *)
Definition candidate_option_ids (cart : Cart.t) (w : World) : list string :=
  flat_map Profile.shipping_options (matched_profiles cart w).

Definition after_find (cart : Cart.t) (w : World) : World :=
  mkWorld (docs w) (tl (faults w))
    (log w ++ [Find (ByProductsIn (getProductsInCart_ cart))]).

(** The collection [ds'] differs from [ds] at most in the profiles stored
    under [id]: same number of profiles, and every profile of [ds] stored
    under another id is still in [ds']. *)
Definition touches_only (id : string) (ds ds' : list Profile.t) : Prop :=
  List.length ds' = List.length ds /\
  forall p, In p ds -> Profile._id p <> id -> In p ds'.

(** The field [f] reads the same, profile by profile, in [ds'] as in
    [ds]. *)
Definition same_field {B} (f : Profile.t -> B) (ds ds' : list Profile.t)
    : Prop :=
  map f ds' = map f ds.

(** The ids of a list in the order of their first occurrence, each once. *)
Fixpoint distinct_in_order (ids : list string) : list string :=
  match ids with
  | [] => []
  | id :: rest => id :: pull id (distinct_in_order rest)
  end.

(** ** Properties of [getProductsInCart_] *)

Lemma includes_In (x : string) (arr : list string) :
  includes x arr = true <-> In x arr.
Proof.
  unfold includes. rewrite existsb_exists. split.
  - intros [y [Hy Heq]]. apply String.eqb_eq in Heq. now subst.
  - intros H. exists x. split; [assumption | apply String.eqb_refl].
Qed.

Lemma push_unless_included_In (acc : list string) (id x : string) :
  In x (push_unless_included acc id) <-> In x acc \/ x = id.
Proof.
  unfold push_unless_included.
  destruct (includes id acc) eqn:E; simpl.
  - apply includes_In in E. split; [now left | intros [H | ->]; assumption].
  - rewrite in_app_iff. simpl.
    split; [intros [H | [<- | []]] | intros [H | ->]];
      [now left | now right | now left | right; now left].
Qed.

Lemma push_unless_included_NoDup (acc : list string) (id : string) :
  NoDup acc -> NoDup (push_unless_included acc id).
Proof.
  intros H. unfold push_unless_included.
  destruct (includes id acc) eqn:E; simpl; [assumption |].
  assert (~ In id acc) as Hn.
  { intros Hin. apply includes_In in Hin. congruence. }
  clear E. induction H as [| y l Hy Hl IH]; simpl.
  - constructor; [intros [] | constructor].
  - constructor.
    + rewrite in_app_iff. simpl. intros [Hin | [<- | []]].
      * contradiction.
      * apply Hn. now left.
    + apply IH. intros Hin. apply Hn. now right.
Qed.

Lemma fold_push_In (ids acc : list string) (x : string) :
  In x (fold_left push_unless_included ids acc) <-> In x acc \/ In x ids.
Proof.
  revert acc. induction ids as [| id ids IH]; intros acc; simpl.
  - split; [intros H; now left | intros [H | []]; assumption].
  - rewrite IH, push_unless_included_In.
    split; [intros [[H | ->] | H] | intros [H | [<- | H]]];
      [now left | right; now left | right; now right
      | left; now left | left; now right | now right].
Qed.

Lemma fold_push_NoDup (ids acc : list string) :
  NoDup acc -> NoDup (fold_left push_unless_included ids acc).
Proof.
  revert acc. induction ids as [| id ids IH]; intros acc H; simpl.
  - assumption.
  - apply IH, push_unless_included_NoDup, H.
Qed.

Lemma fold_items_flat (items : list Cart.LineItem) (acc : list string) :
  fold_left
    (fun acc next =>
       match Cart.content next with
       | Cart.Multiple subitems =>
           fold_left
             (fun acc sub =>
                push_unless_included acc (Product._id (Cart.product sub)))
             subitems acc
       | Cart.Single item =>
           push_unless_included acc (Product._id (Cart.product item))
       end)
    items acc
  = fold_left push_unless_included (flat_map item_product_ids items) acc.
Proof.
  revert acc. induction items as [| item items IH]; intros acc; simpl.
  - reflexivity.
  - rewrite IH, fold_left_app. f_equal.
    unfold item_product_ids. destruct (Cart.content item) as [sub | subs].
    + reflexivity.
    + clear. revert acc. induction subs as [| sub subs IHs]; intros acc.
      * reflexivity.
      * simpl. apply IHs.
Qed.

Lemma getProductsInCart_fold (cart : Cart.t) :
  getProductsInCart_ cart
  = fold_left push_unless_included (referenced_product_ids cart) [].
Proof. apply fold_items_flat. Qed.

Lemma referenced_iff (cart : Cart.t) (id : string) :
  In id (referenced_product_ids cart) <-> refers_to cart id.
Proof.
  unfold referenced_product_ids. rewrite in_flat_map. split.
  - intros [item [Hitem Hid]]. unfold item_product_ids in Hid.
    destruct (Cart.content item) as [sub | subs] eqn:E.
    + destruct Hid as [Hid | []].
      now apply (refers_single cart id item sub).
    + apply in_map_iff in Hid. destruct Hid as [sub [Hid Hsub]].
      now apply (refers_multiple cart id item subs sub).
  - intros [item sub Hitem Hc Hid | item subs sub Hitem Hc Hsub Hid];
      exists item; (split; [assumption |]);
      unfold item_product_ids; rewrite Hc.
    + now left.
    + apply in_map_iff. now exists sub.
Qed.

(** C9. The product ids [getProductsInCart_] derives from a cart hold no
    duplicate, and an id is among them exactly when some line item refers
    to it, either as the product of the item's single content or as the
    product of one of the sub-items of an array content; every referenced
    id therefore occurs exactly once. *)
Theorem getProductsInCart_distinct (cart : Cart.t) :
  NoDup (getProductsInCart_ cart) /\
  (forall id, In id (getProductsInCart_ cart) <-> refers_to cart id) /\
  (forall id, refers_to cart id ->
              count_occ string_dec (getProductsInCart_ cart) id = 1).
Proof.
  assert (NoDup (getProductsInCart_ cart)) as Hnd.
  { rewrite getProductsInCart_fold. apply fold_push_NoDup. constructor. }
  assert (forall id, In id (getProductsInCart_ cart) <-> refers_to cart id)
    as Hin.
  { intros id. rewrite getProductsInCart_fold, fold_push_In.
    rewrite referenced_iff. simpl.
    split; [intros [[] | H]; assumption | intros H; now right]. }
  repeat split; try apply Hin; try assumption.
  intros id Hid. apply NoDup_count_occ'; [assumption | now apply Hin].
Qed.

(** ** Identifier validation and the guards of [update] *)

Ltac run :=
  unfold retrieve, update, setMetadata, delete, list_, try_, catch_db,
    try_catch, model_updateOne, model_findOne, model_deleteOne, model_find,
    store_call, bind, lift, ret, throw, validateId_ in *.

(** C7. When the validator reports an error for the id, [retrieve],
    [update] and [setMetadata] each throw a [MedusaError] of type
    [INVALID_ARGUMENT], whatever the other arguments are, and the world
    they leave is the world they found: nothing was asked of the store. *)
Theorem malformed_id_invalid_argument
    (profileId : string) (fields : JsObject) (key val : JsValue) (w : World) :
  error (objectId_validate profileId) <> None ->
  exists msg,
    retrieve profileId w = (Throw (MedusaError INVALID_ARGUMENT msg), w) /\
    update profileId fields w = (Throw (MedusaError INVALID_ARGUMENT msg), w) /\
    setMetadata profileId key val w
      = (Throw (MedusaError INVALID_ARGUMENT msg), w).
Proof.
  intros Herr. run.
  destruct (error (objectId_validate profileId)) as [e |];
    [| congruence].
  eexists. repeat split.
Qed.

(** C8, as amended. With an id the validator accepts, [update] throws
    [INVALID_DATA] and leaves the world as it was, no store call made,
    whenever the [metadata], [products] or [shipping_options] entry of the
    update holds a truthy value; every object and every array is truthy,
    so setting [metadata] to an object, [products] to an array or
    [shipping_options] to an array is rejected. *)
Theorem update_rejects_truthy_guarded_fields
    (profileId : string) (w : World) :
  error (objectId_validate profileId) = None ->
  (forall fields,
     truthy (get_prop "metadata" fields)
       || truthy (get_prop "products" fields)
       || truthy (get_prop "shipping_options" fields) = true ->
     exists msg,
       update profileId fields w
       = (Throw (MedusaError INVALID_DATA msg), w)) /\
  (forall props rest, exists msg,
     update profileId (("metadata", JObj props) :: rest) w
     = (Throw (MedusaError INVALID_DATA msg), w)) /\
  (forall elems rest, exists msg,
     update profileId (("products", JArr elems) :: rest) w
     = (Throw (MedusaError INVALID_DATA msg), w)) /\
  (forall elems rest, exists msg,
     update profileId (("shipping_options", JArr elems) :: rest) w
     = (Throw (MedusaError INVALID_DATA msg), w)).
Proof.
  intros Hid.
  assert (forall fields,
     truthy (get_prop "metadata" fields)
       || truthy (get_prop "products" fields)
       || truthy (get_prop "shipping_options" fields) = true ->
     exists msg,
       update profileId fields w
       = (Throw (MedusaError INVALID_DATA msg), w)) as Hgen.
  { intros fields Hguard. run. rewrite Hid.
    destruct (truthy (get_prop "metadata" fields)); [eexists; reflexivity |].
    destruct (truthy (get_prop "products" fields)); [eexists; reflexivity |].
    destruct (truthy (get_prop "shipping_options" fields));
      [eexists; reflexivity | discriminate]. }
  split; [exact Hgen |].
  repeat split; intros; apply Hgen; simpl;
    repeat (rewrite ?orb_true_r; try reflexivity).
Qed.

(** C10. With an id the validator accepts, an update whose [metadata],
    [products] and [shipping_options] entries are all falsy ([null], [0],
    the empty string, absent, ...) passes the three guards: the outcome is
    that of the store's [updateOne] with [{ $set: update }], the update
    object reaching the store as it was given, and it is no
    [INVALID_DATA] error. *)
Theorem update_passes_falsy_guarded_fields
    (profileId : string) (fields : JsObject) (w : World) :
  error (objectId_validate profileId) = None ->
  truthy (get_prop "metadata" fields) = false ->
  truthy (get_prop "products" fields) = false ->
  truthy (get_prop "shipping_options" fields) = false ->
  let call :=
    UpdateOne (ById (value (objectId_validate profileId))) (Set_ fields) in
  update profileId fields w
    = catch_db (model_updateOne (ById (value (objectId_validate profileId)))
                  (Set_ fields)) w /\
  log (snd (update profileId fields w)) = (log w ++ [call])%list /\
  (forall msg,
     fst (update profileId fields w) <> Throw (MedusaError INVALID_DATA msg)).
Proof.
  intros Hid Hm Hp Hs call. subst call. run.
  rewrite Hid, Hm, Hp, Hs.
  split; [reflexivity |].
  destruct (faults w) as [| [msg |] later]; simpl;
    (split; [reflexivity | intros m; discriminate]).
Qed.

(** ** [delete] *)

(** C4, as amended. [delete] turns every failure of the retrieval into a
    successful no-op ([Promise.resolve()]), be it a malformed id, a store
    fault during the lookup or a profile that does not exist, and then
    makes no further store call.  When the retrieval succeeds the
    document is removed by [deleteOne]; a fault of that call is thrown
    as a [DB_ERROR] that carries the fault's message and the collection
    is left alone. *)
Theorem delete_outcomes
    (profileId : string) (w w1 : World) (o : outcome Profile.t) :
  retrieve profileId w = (o, w1) ->
  (forall e, o = Throw e -> delete profileId w = (Return None, w1)) /\
  (forall profile msg later,
     o = Return profile ->
     faults w1 = Some msg :: later ->
     delete profileId w
     = (Throw (MedusaError DB_ERROR msg),
        mkWorld (docs w1) later
          (log w1 ++ [DeleteOne (ById (Profile._id profile))]))) /\
  (forall profile,
     o = Return profile ->
     hd None (faults w1) = None ->
     delete profileId w
     = (Return (Some (mkWrite
                  (count_matching (ById (Profile._id profile)) (docs w1)))),
        mkWorld (delete_first (ById (Profile._id profile)) (docs w1))
          (tl (faults w1))
          (log w1 ++ [DeleteOne (ById (Profile._id profile))]))).
Proof.
  intros Hr. unfold delete, try_, bind. rewrite Hr.
  repeat split.
  - intros e ->. reflexivity.
  - intros profile msg later -> Hf. run. rewrite Hf. reflexivity.
  - intros profile -> Hf. run.
    destruct (faults w1) as [| [msg |] later]; simpl in *;
      [reflexivity | discriminate | reflexivity].
Qed.

(** ** [fetchCartOptions] *)

Lemma fetchCartOptions_reduce (cart : Cart.t) (w : World) :
  hd None (faults w) = None ->
  fetchCartOptions cart w
  = (optionIds <- lift (reduce_no_initial RProfile concat_options
                          (matched_profiles cart w)) ;;
     settle_options cart optionIds) (after_find cart w).
Proof.
  intros Hf. unfold fetchCartOptions, matched_profiles, after_find.
  unfold list_, model_find, store_call.
  unfold bind at 1.
  destruct (faults w) as [| [msg |] later]; simpl in *;
    [reflexivity | discriminate | reflexivity].
Qed.

(** C1. When the lookup goes through and no profile matches the cart's
    product ids, [fetchCartOptions] throws the [TypeError] of a [reduce]
    over an empty array without initial value; it returns no sequence. *)
Theorem fetchCartOptions_no_match_throws (cart : Cart.t) (w : World) :
  hd None (faults w) = None ->
  matched_profiles cart w = [] ->
  fetchCartOptions cart w
  = (Throw (TypeError "Reduce of empty array with no initial value"),
     after_find cart w).
Proof.
  intros Hf Hm. rewrite fetchCartOptions_reduce by assumption.
  rewrite Hm. reflexivity.
Qed.

(** C2. When the lookup goes through and at least one profile matches,
    [fetchCartOptions] throws a [TypeError]: with one match the fold
    yields the profile document, which has no [map]; with more the first
    call of the callback finds no [concat] on the profile document that
    seeds the accumulator.  No option is validated, none returned. *)
Theorem fetchCartOptions_match_throws (cart : Cart.t) (w : World) :
  hd None (faults w) = None ->
  matched_profiles cart w <> [] ->
  fetchCartOptions cart w
  = (Throw (TypeError
              (match matched_profiles cart w with
               | [_] => "optionIds.map is not a function"
               | _ => "acc.concat is not a function"
               end)),
     after_find cart w).
Proof.
  intros Hf Hm. rewrite fetchCartOptions_reduce by assumption.
  destruct (matched_profiles cart w) as [| p1 [| p2 rest]];
    [congruence | reflexivity | reflexivity].
Qed.

(** Whatever the cart and the world, [fetchCartOptions] returns nothing. *)
Lemma reduce_no_initial_never_array (profiles : list Profile.t) :
  match reduce_no_initial RProfile concat_options profiles with
  | Return (RArray _) => False
  | Return (RProfile _) => exists p, profiles = [p]
  | Throw e => exists msg, e = TypeError msg
  end.
Proof.
  destruct profiles as [| p1 [| p2 rest]]; simpl.
  - now eexists.
  - now exists p1.
  - now eexists.
Qed.

Lemma fetchCartOptions_always_throws (cart : Cart.t) (w : World) :
  exists e w', fetchCartOptions cart w = (Throw e, w').
Proof.
  unfold fetchCartOptions, list_, model_find, store_call.
  unfold bind at 1.
  pose proof (reduce_no_initial_never_array
                (filter (matches (ByProductsIn (getProductsInCart_ cart)))
                   (docs w))) as Hr.
  destruct (faults w) as [| [msg |] later]; cbn [fst snd];
    try (eexists _, _; reflexivity);
    unfold bind, lift;
    destruct (reduce_no_initial _ _ _) as [[p | ids] | e];
      try contradiction; eexists _, _; reflexivity.
Qed.

Lemma validateOptions_app (cart : Cart.t) (xs ys : list string) :
  validateOptions cart (xs ++ ys)
  = (validateOptions cart xs ++ validateOptions cart ys)%list.
Proof.
  unfold validateOptions, filter_non_null.
  now rewrite map_app, flat_map_app.
Qed.

Lemma validateOptions_cons (cart : Cart.t) (oId : string)
    (rest : list string) :
  validateOptions cart (oId :: rest)
  = match shippingOptionService_validateCartOption oId cart with
    | Return option => option :: validateOptions cart rest
    | Throw _ => validateOptions cart rest
    end.
Proof.
  unfold validateOptions, filter_non_null, validate_or_null. simpl.
  destruct (shippingOptionService_validateCartOption oId cart); reflexivity.
Qed.

(** The validation stage on its own (lines 292-303), given an array of
    candidate ids: it throws nothing, an id whose validation throws
    contributes nothing and an id whose validation succeeds contributes its
    record in place.  [fetchCartOptions] never hands it an array, see
    [reduce_no_initial_never_array]. *)
Theorem validation_failure_drops_only_that_option
    (cart : Cart.t) (failing passing : string) (e : Error)
    (option : ShippingOption.t) (w : World) :
  shippingOptionService_validateCartOption failing cart = Throw e ->
  shippingOptionService_validateCartOption passing cart = Return option ->
  (forall optionIds,
     settle_options cart (RArray optionIds) w
     = (Return (validateOptions cart optionIds), w)) /\
  (forall before after,
     validateOptions cart (before ++ failing :: after)
     = validateOptions cart (before ++ after)) /\
  (forall before after,
     validateOptions cart (before ++ passing :: after)
     = (validateOptions cart before
          ++ option :: validateOptions cart after)%list) /\
  settle_options cart (RArray [failing; passing]) w = (Return [option], w) /\
  settle_options cart (RArray [passing; failing]) w = (Return [option], w).
Proof.
  intros Hfail Hpass. repeat split.
  - intros before after.
    now rewrite !validateOptions_app, validateOptions_cons, Hfail.
  - intros before after.
    now rewrite validateOptions_app, validateOptions_cons, Hpass.
  - unfold settle_options, ret.
    now rewrite !validateOptions_cons, Hfail, Hpass.
  - unfold settle_options, ret.
    now rewrite !validateOptions_cons, Hfail, Hpass.
Qed.

(** C6. When the lookup goes through and the matched profiles offer a
    candidate whose validation fails and one whose validation succeeds,
    [fetchCartOptions] does not return the succeeding option: it throws the
    [TypeError] of its fold before any candidate is validated, and returns
    no sequence at all. *)
Theorem fetchCartOptions_partial_validation_throws
    (cart : Cart.t) (w : World) (failing passing : string) (e : Error)
    (option : ShippingOption.t) :
  hd None (faults w) = None ->
  In failing (candidate_option_ids cart w) ->
  In passing (candidate_option_ids cart w) ->
  shippingOptionService_validateCartOption failing cart = Throw e ->
  shippingOptionService_validateCartOption passing cart = Return option ->
  (exists msg,
     fetchCartOptions cart w = (Throw (TypeError msg), after_find cart w)) /\
  fst (fetchCartOptions cart w) <> Return [option] /\
  forall options, fst (fetchCartOptions cart w) <> Return options.
Proof.
  intros Hf Hfail Hpass _ _.
  assert (exists msg,
            fetchCartOptions cart w
            = (Throw (TypeError msg), after_find cart w)) as [msg Hthrow].
  { rewrite fetchCartOptions_reduce by assumption.
    unfold candidate_option_ids in Hfail.
    destruct (matched_profiles cart w) as [| p1 [| p2 rest]].
    - destruct Hfail.
    - eexists. reflexivity.
    - eexists. reflexivity. }
  rewrite Hthrow. simpl.
  split; [now exists msg |]. split; [discriminate |].
  intros options. discriminate.
Qed.

(** ** The store under the membership operations *)

Lemma retrieve_docs (profileId : string) (w : World) :
  docs (snd (retrieve profileId w)) = docs w.
Proof.
  run. destruct (error (objectId_validate profileId)); [reflexivity |].
  destruct (faults w) as [| [msg |] later]; simpl;
    try reflexivity;
    destruct (find _ (docs w)); reflexivity.
Qed.

Lemma retrieve_Return (profileId : string) (w w1 : World)
    (profile : Profile.t) :
  retrieve profileId w = (Return profile, w1) ->
  error (objectId_validate profileId) = None /\
  find (matches (ById (value (objectId_validate profileId)))) (docs w)
    = Some profile /\
  docs w1 = docs w /\
  hd None (faults w) = None /\
  faults w1 = tl (faults w).
Proof.
  run. destruct (error (objectId_validate profileId)); [discriminate |].
  destruct (faults w) as [| [msg |] later]; simpl;
    try discriminate;
    destruct (find _ (docs w)) eqn:Ef; try discriminate;
    intros H; injection H as <- <-; repeat split.
Qed.

Lemma retrieve_id (profileId : string) (w w1 : World)
    (profile : Profile.t) :
  retrieve profileId w = (Return profile, w1) ->
  Profile._id profile = value (objectId_validate profileId).
Proof.
  intros H. apply retrieve_Return in H. destruct H as (_ & Hf & _).
  apply find_some in Hf. destruct Hf as [_ Hm]. simpl in Hm.
  now apply String.eqb_eq.
Qed.

Lemma updateOne_Return (s : Selector) (p : Patch) (w w1 : World)
    (r : WriteResult) :
  model_updateOne s p w = (Return r, w1) ->
  docs w1 = update_first s (apply_patch p) (docs w) /\
  hd None (faults w) = None /\
  faults w1 = tl (faults w).
Proof.
  run. destruct (faults w) as [| [msg |] later]; simpl;
    try discriminate; intros H; injection H as <- <-; repeat split.
Qed.

Lemma updateOne_Throw (s : Selector) (p : Patch) (w w1 : World)
    (e : Error) :
  model_updateOne s p w = (Throw e, w1) -> docs w1 = docs w.
Proof.
  run. destruct (faults w) as [| [msg |] later]; simpl;
    try discriminate; intros H; injection H as <- <-; reflexivity.
Qed.

Lemma find_update_first (s : Selector) (g : Profile.t -> Profile.t)
    (ds : list Profile.t) (d : Profile.t) :
  find (matches s) ds = Some d ->
  matches s (g d) = true ->
  find (matches s) (update_first s g ds) = Some (g d).
Proof.
  intros Hf Hg. induction ds as [| x rest IH]; simpl in *; [discriminate |].
  destruct (matches s x) eqn:Ex.
  - injection Hf as ->. simpl. now rewrite Hg.
  - simpl. rewrite Ex. now apply IH.
Qed.

Lemma update_first_no_match (s : Selector) (g : Profile.t -> Profile.t)
    (ds : list Profile.t) :
  find (matches s) ds = None -> update_first s g ds = ds.
Proof.
  induction ds as [| x rest IH]; simpl; [reflexivity |].
  destruct (matches s x); [discriminate |].
  intros H. now rewrite IH.
Qed.

Lemma In_update_first (s : Selector) (g : Profile.t -> Profile.t)
    (ds : list Profile.t) (q : Profile.t) :
  In q (update_first s g ds) ->
  In q ds \/ exists d, find (matches s) ds = Some d /\ q = g d.
Proof.
  induction ds as [| x rest IH]; simpl; [intros [] |].
  destruct (matches s x) eqn:Ex; simpl.
  - intros [<- | H]; [right; now exists x | left; now right].
  - intros [<- | H]; [left; now left |].
    destruct (IH H) as [Hin | Hex]; [left; now right | now right].
Qed.

Lemma js_find_truthy_In (id : string) (arr : list string) :
  truthy (js_find (fun p => p =? id) arr) = true -> In id arr.
Proof.
  unfold js_find. destruct (find _ arr) as [x |] eqn:Ef; [| discriminate].
  intros _. apply find_some in Ef. destruct Ef as [Hin Heq].
  apply String.eqb_eq in Heq. now subst.
Qed.

Lemma In_js_find_truthy (id : string) (arr : list string) :
  In id arr -> id <> "" ->
  truthy (js_find (fun p => p =? id) arr) = true.
Proof.
  intros Hin Hne. unfold js_find.
  destruct (find _ arr) as [x |] eqn:Ef.
  - apply find_some in Ef. destruct Ef as [_ Heq].
    apply String.eqb_eq in Heq. subst x. simpl.
    destruct (String.eqb_spec id ""); [contradiction | reflexivity].
  - apply (find_none _ _ Ef) in Hin. now rewrite String.eqb_refl in Hin.
Qed.

Lemma In_pull (v x : string) (arr : list string) :
  In x (pull v arr) <-> In x arr /\ x <> v.
Proof.
  unfold pull. rewrite filter_In.
  destruct (String.eqb_spec x v) as [E | E]; simpl.
  - split; [intros [_ H]; discriminate | intros [_ H]; contradiction].
  - split; [intros [H _]; now split | intros [H _]; now split].
Qed.

Lemma js_find_pull (id : string) (arr : list string) :
  js_find (fun p => p =? id) (pull id arr) = JUndefined.
Proof.
  unfold js_find.
  destruct (find _ (pull id arr)) as [x |] eqn:Ef; [| reflexivity].
  apply find_some in Ef. destruct Ef as [Hin Heq].
  apply String.eqb_eq in Heq. apply In_pull in Hin.
  destruct Hin as [_ Hne]. contradiction.
Qed.

(** ** [addProduct] and [removeProduct] *)

Lemma addProduct_Throw_docs (profileId productId : string) (w w1 : World)
    (e : Error) :
  addProduct profileId productId w = (Throw e, w1) -> docs w1 = docs w.
Proof.
  unfold addProduct, bind at 1.
  pose proof (retrieve_docs profileId w) as Hd.
  destruct (retrieve profileId w) as [[profile | e0] w0]; simpl in Hd.
  - unfold bind, lift, ret.
    destruct (productService_retrieve productId) as [product | e1].
    + destruct (truthy _); [discriminate |].
      destruct (model_updateOne _ _ w0) as [[r | e2] w2] eqn:Eu;
        [discriminate |].
      intros H. injection H as _ <-.
      apply updateOne_Throw in Eu. congruence.
    + intros H. injection H as _ <-. assumption.
  - intros H. injection H as _ <-. assumption.
Qed.

Lemma addProduct_Return (profileId productId : string) (w w1 : World)
    (r : option WriteResult) :
  addProduct profileId productId w = (Return r, w1) ->
  exists profile product,
    productService_retrieve productId = Return product /\
    find (matches (ById (value (objectId_validate profileId)))) (docs w1)
      = Some profile /\
    In (Product._id product) (Profile.products profile).
Proof.
  unfold addProduct, bind at 1.
  destruct (retrieve profileId w) as [[profile | e0] w0] eqn:Er;
    [| discriminate].
  pose proof (retrieve_id _ _ _ _ Er) as Hid.
  apply retrieve_Return in Er. destruct Er as (_ & Hf & Hd & _).
  unfold bind, lift, ret.
  destruct (productService_retrieve productId) as [product | e1];
    [| discriminate].
  destruct (truthy _) eqn:Et.
  - intros H. injection H as _ <-.
    exists profile, product. rewrite Hd.
    repeat split; [assumption | now apply js_find_truthy_In].
  - destruct (model_updateOne _ _ w0) as [[r0 | e2] w2] eqn:Eu;
      [| discriminate].
    intros H. injection H as _ <-.
    apply updateOne_Return in Eu. destruct Eu as (Hu & _).
    exists (push_field products_field (Product._id product) profile), product.
    split; [reflexivity |]. split.
    + rewrite Hu, Hd, Hid. cbn [apply_patch].
      apply find_update_first; [assumption |].
      simpl. rewrite Hid. apply String.eqb_refl.
    + simpl. apply in_or_app. right. now left.
Qed.

Lemma addProduct_again (profileId productId : string) (w : World)
    (profile : Profile.t) (product : Product.t) :
  productService_retrieve productId = Return product ->
  Product._id product <> "" ->
  find (matches (ById (value (objectId_validate profileId)))) (docs w)
    = Some profile ->
  In (Product._id product) (Profile.products profile) ->
  docs (snd (addProduct profileId productId w)) = docs w.
Proof.
  intros Hp Hne Hf Hin. unfold addProduct, bind at 1.
  pose proof (retrieve_docs profileId w) as Hd.
  destruct (retrieve profileId w) as [[profile' | e0] w0] eqn:Er;
    simpl in Hd; [| assumption].
  apply retrieve_Return in Er. destruct Er as (_ & Hf' & _).
  assert (profile' = profile) as -> by congruence.
  unfold bind, lift, ret. rewrite Hp.
  rewrite In_js_find_truthy by assumption. assumption.
Qed.

Lemma removeProduct_again (profileId productId : string) (w w1 : World)
    (r : option WriteResult) :
  removeProduct profileId productId w = (Return r, w1) ->
  docs (snd (removeProduct profileId productId w1)) = docs w1.
Proof.
  unfold removeProduct at 1, bind at 1.
  destruct (retrieve profileId w) as [[profile | e0] w0] eqn:Er;
    [| discriminate].
  pose proof (retrieve_id _ _ _ _ Er) as Hid.
  apply retrieve_Return in Er. destruct Er as (_ & Hf & Hd & _).
  unfold bind, ret.
  destruct (truthy (js_find _ (Profile.products profile))) eqn:Et; simpl.
  - destruct (model_updateOne _ _ w0) as [[r0 | e2] w2] eqn:Eu;
      [| discriminate].
    intros H. injection H as _ <-.
    apply updateOne_Return in Eu. destruct Eu as (Hu & _).
    assert (find (matches (ById (value (objectId_validate profileId))))
              (docs w2)
            = Some (pull_field products_field productId profile)) as Hf2.
    { rewrite Hu, Hd, Hid. cbn [apply_patch].
      apply find_update_first; [assumption |].
      simpl. rewrite Hid. apply String.eqb_refl. }
    unfold removeProduct, bind at 1.
    pose proof (retrieve_docs profileId w2) as Hd2.
    destruct (retrieve profileId w2) as [[profile' | e0] w3] eqn:Er2;
      simpl in Hd2; [| assumption].
    apply retrieve_Return in Er2. destruct Er2 as (_ & Hf' & _).
    assert (profile' = pull_field products_field productId profile)
      as -> by congruence.
    simpl. rewrite js_find_pull. assumption.
  - intros H. injection H as _ <-.
    unfold removeProduct, bind at 1.
    pose proof (retrieve_docs profileId w0) as Hd2.
    destruct (retrieve profileId w0) as [[profile' | e0] w3] eqn:Er2;
      simpl in Hd2; [| assumption].
    apply retrieve_Return in Er2. destruct Er2 as (_ & Hf' & _).
    assert (profile' = profile) as -> by congruence.
    rewrite Et. assumption.
Qed.

Lemma addProduct_NoDup (profileId productId : string) (w : World) :
  (forall product,
     productService_retrieve productId = Return product ->
     Product._id product <> "") ->
  (forall p, In p (docs w) -> NoDup (Profile.products p)) ->
  forall p, In p (docs (snd (addProduct profileId productId w))) ->
            NoDup (Profile.products p).
Proof.
  intros Hne Hnd. unfold addProduct, bind at 1.
  pose proof (retrieve_docs profileId w) as Hd.
  destruct (retrieve profileId w) as [[profile | e0] w0] eqn:Er;
    simpl in Hd; [| simpl; rewrite Hd; assumption].
  pose proof (retrieve_id _ _ _ _ Er) as Hid.
  apply retrieve_Return in Er. destruct Er as (_ & Hf & _).
  unfold bind, lift, ret.
  destruct (productService_retrieve productId) as [product | e1] eqn:Ep;
    [| simpl; rewrite Hd; assumption].
  destruct (truthy _) eqn:Et; [simpl; rewrite Hd; assumption |].
  destruct (model_updateOne _ _ w0) as [[r0 | e2] w2] eqn:Eu; simpl.
  - apply updateOne_Return in Eu. destruct Eu as (Hu & _).
    intros p Hp. rewrite Hu, Hd in Hp.
    apply In_update_first in Hp. destruct Hp as [Hp | [d [Hfd ->]]].
    + now apply Hnd.
    + rewrite Hid, Hf in Hfd. injection Hfd as <-. simpl.
      apply NoDup_app.
      * apply Hnd. apply find_some in Hf. apply Hf.
      * repeat constructor. intros [].
      * intros x Hx [<- | []].
        rewrite In_js_find_truthy in Et; [discriminate | assumption |].
        now apply Hne.
  - apply updateOne_Throw in Eu. rewrite Eu, Hd. assumption.
Qed.

(** C5. Provided the product service never hands out a record with an
    empty id: once [addProduct] has succeeded, a second call with the same
    arguments leaves every profile as the first call left it, and a call
    that fails changes no profile; the same holds of [removeProduct]
    (with no proviso); and [addProduct] keeps every product list free of
    duplicates. *)
Theorem membership_mutation_idempotent
    (profileId productId : string) (w : World) :
  (forall product,
     productService_retrieve productId = Return product ->
     Product._id product <> "") ->
  (forall r w1,
     addProduct profileId productId w = (Return r, w1) ->
     docs (snd (addProduct profileId productId w1)) = docs w1) /\
  (forall e w1,
     addProduct profileId productId w = (Throw e, w1) -> docs w1 = docs w) /\
  (forall r w1,
     removeProduct profileId productId w = (Return r, w1) ->
     docs (snd (removeProduct profileId productId w1)) = docs w1) /\
  ((forall p, In p (docs w) -> NoDup (Profile.products p)) ->
   forall p, In p (docs (snd (addProduct profileId productId w))) ->
             NoDup (Profile.products p)).
Proof.
  intros Hne. repeat split.
  - intros r w1 H. apply addProduct_Return in H.
    destruct H as (profile & product & Hp & Hf & Hin).
    apply (addProduct_again _ _ _ profile product); auto.
  - intros e w1. apply addProduct_Throw_docs.
  - intros r w1. apply removeProduct_again.
  - now apply addProduct_NoDup.
Qed.

(** ** [addShippingOption] and the exclusivity of options *)

Lemma list_Return (s : Selector) (w w1 : World) (ps : list Profile.t) :
  list_ s w = (Return ps, w1) ->
  ps = filter (matches s) (docs w) /\ docs w1 = docs w.
Proof.
  run. destruct (faults w) as [| [msg |] later]; simpl;
    try discriminate; intros H; injection H as <- <-; split; reflexivity.
Qed.

Lemma removeShippingOption_Return (profileId optionId : string)
    (w w1 : World) (r : WriteResult) :
  removeShippingOption profileId optionId w = (Return r, w1) ->
  docs w1
  = update_first (ById profileId)
      (pull_field shipping_options_field optionId) (docs w).
Proof.
  unfold removeShippingOption, bind.
  destruct (retrieve profileId w) as [[profile | e0] w0] eqn:Er;
    [| discriminate].
  apply retrieve_Return in Er. destruct Er as (_ & _ & Hd & _).
  intros Hu. apply updateOne_Return in Hu. destruct Hu as (Hu & _).
  now rewrite Hu, Hd.
Qed.

Lemma map_id_update_first (s : Selector) (g : Profile.t -> Profile.t)
    (ds : list Profile.t) :
  (forall d, Profile._id (g d) = Profile._id d) ->
  map Profile._id (update_first s g ds) = map Profile._id ds.
Proof.
  intros Hg. induction ds as [| d rest IH]; simpl; [reflexivity |].
  destruct (matches s d); simpl; [now rewrite Hg | now rewrite IH].
Qed.

Lemma includes_pull (v : string) (arr : list string) :
  includes v (pull v arr) = false.
Proof.
  destruct (includes v (pull v arr)) eqn:E; [| reflexivity].
  apply includes_In, In_pull in E. destruct E as [_ E]. now contradiction E.
Qed.

Lemma includes_push (v : string) (arr : list string) :
  includes v (arr ++ [v]) = true.
Proof. apply includes_In, in_or_app. right. now left. Qed.

Lemma holders_push (oid target : string) (ds : list Profile.t) :
  holders oid ds = [] ->
  In target (map Profile._id ds) ->
  exists p,
    holders oid
      (update_first (ById target) (push_field shipping_options_field oid) ds)
    = [p] /\ Profile._id p = target.
Proof.
  unfold holders. induction ds as [| d rest IH]; simpl;
    [intros _ [] |].
  destruct (includes oid (Profile.shipping_options d)) eqn:Ei;
    [discriminate |].
  intros Hh Hin. destruct (String.eqb_spec (Profile._id d) target) as [E | E].
  - simpl. rewrite includes_push, Hh. eexists. split; [reflexivity | exact E].
  - simpl. rewrite Ei. apply IH; [assumption |].
    destruct Hin; [contradiction | assumption].
Qed.

Lemma holders_pull (oid : string) (ds : list Profile.t) (h : Profile.t) :
  unique_ids ds ->
  holders oid ds = [h] ->
  holders oid
    (update_first (ById (Profile._id h))
       (pull_field shipping_options_field oid) ds)
  = [].
Proof.
  unfold unique_ids, holders.
  induction ds as [| d rest IH]; simpl; [discriminate |].
  intros Hnd Hh. inversion Hnd as [| x l Hx Hl]; subst.
  destruct (includes oid (Profile.shipping_options d)) eqn:Ei.
  - injection Hh as -> Hrest. rewrite String.eqb_refl. simpl.
    now rewrite includes_pull.
  - destruct (String.eqb_spec (Profile._id d) (Profile._id h)) as [E | E].
    + exfalso. apply Hx. rewrite E. apply in_map.
      assert (In h (filter (matches (ByShippingOption oid)) rest)) as Hin
        by (rewrite Hh; now left).
      apply filter_In in Hin. apply Hin.
    + simpl. rewrite Ei. now apply IH.
Qed.

Lemma push_field_id (f : Field) (v : string) (d : Profile.t) :
  Profile._id (push_field f v d) = Profile._id d.
Proof. destruct f; reflexivity. Qed.

Lemma pull_field_id (f : Field) (v : string) (d : Profile.t) :
  Profile._id (pull_field f v d) = Profile._id d.
Proof. destruct f; reflexivity. Qed.

Lemma find_In_ids (target : string) (ds : list Profile.t) (p : Profile.t) :
  find (matches (ById target)) ds = Some p ->
  In target (map Profile._id ds).
Proof.
  intros H. apply find_some in H. destruct H as [Hin Hm].
  simpl in Hm. apply String.eqb_eq in Hm. subst target. now apply in_map.
Qed.

Lemma addShippingOption_step (target optionId : string)
    (shippingOption : ShippingOption.t) (w w1 : World)
    (r : option WriteResult) :
  shippingOptionService_retrieve optionId = Return shippingOption ->
  unique_ids (docs w) ->
  exclusive (ShippingOption._id shippingOption) (docs w) ->
  value (objectId_validate target) = target ->
  addShippingOption target optionId w = (Return r, w1) ->
  unique_ids (docs w1) /\
  exists p,
    holders (ShippingOption._id shippingOption) (docs w1) = [p] /\
    Profile._id p = target.
Proof.
  intros Hso Hu Hex Hv.
  unfold addShippingOption, bind at 1.
  destruct (retrieve target w) as [[profile | e] w0] eqn:Er;
    [| discriminate].
  apply retrieve_Return in Er. destruct Er as (_ & Hf & Hd & _).
  rewrite Hv in Hf.
  unfold bind at 1, lift. rewrite Hso.
  set (oid := ShippingOption._id shippingOption) in *.
  destruct (truthy _) eqn:Et.
  - unfold ret. intros H. injection H as _ <-. rewrite Hd.
    split; [assumption |].
    apply js_find_truthy_In in Et.
    assert (In profile (holders oid (docs w))) as Hin.
    { apply filter_In. apply find_some in Hf.
      split; [apply Hf | now apply includes_In]. }
    unfold exclusive in Hex.
    destruct (holders oid (docs w)) as [| h [| h2 rest]]; simpl in *.
    + contradiction.
    + destruct Hin as [-> | []]. exists profile. split; [reflexivity |].
      apply find_some in Hf. destruct Hf as [_ Hm].
      now apply String.eqb_eq in Hm.
    + lia.
  - unfold bind at 1.
    destruct (list_ _ w0) as [[profiles | e] w2] eqn:El; [| discriminate].
    apply list_Return in El. destruct El as (-> & Hd2).
    fold (holders oid (docs w0)). rewrite Hd.
    unfold bind at 1.
    assert (forall ds w3 r3,
              unique_ids ds -> holders oid ds = [] ->
              In target (map Profile._id ds) ->
              docs w3 = ds ->
              (r0 <- model_updateOne (ById target)
                       (Push shipping_options_field oid) ;;
               ret (Some r0)) w3 = (Return r3, w1) ->
              unique_ids (docs w1) /\
              exists p, holders oid (docs w1) = [p] /\
                        Profile._id p = target) as Hpush.
    { intros ds w3 r3 Hu3 Hh3 Hin3 Hd3. unfold bind, ret.
      destruct (model_updateOne _ _ w3) as [[r0 | e] w4] eqn:Eu;
        [| discriminate].
      intros H. injection H as _ <-.
      apply updateOne_Return in Eu. destruct Eu as (Hu4 & _).
      rewrite Hu4, Hd3. cbn [apply_patch]. split.
      - unfold unique_ids. rewrite map_id_update_first; [assumption |].
        apply push_field_id.
      - now apply holders_push. }
    destruct (holders oid (docs w)) as [| first rest] eqn:Eh.
    + unfold ret at 1. apply (Hpush (docs w)); try assumption.
      * now apply (find_In_ids _ _ profile).
      * congruence.
    + assert (rest = []) as ->.
      { unfold exclusive in Hex. rewrite Eh in Hex. simpl in Hex.
        destruct rest; [reflexivity | simpl in Hex; lia]. }
      unfold bind at 1.
      destruct (removeShippingOption (Profile._id first) oid w2)
        as [[r1 | e] w3] eqn:Erm; [| discriminate].
      apply removeShippingOption_Return in Erm.
      rewrite Hd2, Hd in Erm.
      unfold ret at 1.
      apply (Hpush (docs w3)); try reflexivity.
      * unfold unique_ids. rewrite Erm, map_id_update_first;
          [assumption | apply pull_field_id].
      * rewrite Erm. now apply holders_pull.
      * rewrite Erm, map_id_update_first by apply pull_field_id.
        now apply (find_In_ids _ _ profile).
Qed.

Lemma find_by_id_some (target : string) (ds : list Profile.t) :
  In target (map Profile._id ds) ->
  exists p, find (matches (ById target)) ds = Some p.
Proof.
  intros Hin. destruct (find (matches (ById target)) ds) as [p |] eqn:Ef;
    [now exists p |].
  apply in_map_iff in Hin. destruct Hin as [d [Hid Hd]].
  apply (find_none _ _ Ef) in Hd. simpl in Hd.
  rewrite Hid, String.eqb_refl in Hd. discriminate.
Qed.

Lemma retrieve_clean (profileId : string) (w : World) :
  faults w = [] ->
  stored_ids_valid (docs w) ->
  In profileId (map Profile._id (docs w)) ->
  exists profile w1,
    retrieve profileId w = (Return profile, w1) /\
    docs w1 = docs w /\ faults w1 = [].
Proof.
  intros Hf Hv Hin. destruct (Hv _ Hin) as [He Hval].
  destruct (find_by_id_some _ _ Hin) as [p Hp].
  exists p. run. rewrite He, Hf, Hval. simpl. rewrite Hp.
  eexists. repeat split.
Qed.

Lemma updateOne_clean (s : Selector) (p : Patch) (w : World) :
  faults w = [] ->
  exists r w1,
    model_updateOne s p w = (Return r, w1) /\
    docs w1 = update_first s (apply_patch p) (docs w) /\
    faults w1 = [].
Proof. intros Hf. run. rewrite Hf. eexists _, _. repeat split. Qed.

Lemma addShippingOption_returns (target optionId : string)
    (shippingOption : ShippingOption.t) (w : World) :
  shippingOptionService_retrieve optionId = Return shippingOption ->
  faults w = [] ->
  stored_ids_valid (docs w) ->
  In target (map Profile._id (docs w)) ->
  exists r w1,
    addShippingOption target optionId w = (Return r, w1) /\
    faults w1 = [] /\
    map Profile._id (docs w1) = map Profile._id (docs w).
Proof.
  intros Hso Hf Hv Hin.
  destruct (retrieve_clean _ _ Hf Hv Hin) as (profile & w0 & Er & Hd & Hf0).
  unfold addShippingOption, bind at 1. rewrite Er.
  unfold bind at 1, lift. rewrite Hso.
  set (oid := ShippingOption._id shippingOption) in *.
  destruct (truthy _).
  - exists None, w0. unfold ret. repeat split; [assumption | congruence].
  - unfold bind at 1. unfold list_, model_find, store_call at 1.
    rewrite Hf0. cbn [fst snd].
    set (w2 := mkWorld (docs w0) [] _).
    assert (forall w3,
              faults w3 = [] ->
              map Profile._id (docs w3) = map Profile._id (docs w) ->
              exists r w1,
                (r0 <- model_updateOne (ById target)
                         (Push shipping_options_field oid) ;;
                 ret (Some r0)) w3 = (Return r, w1) /\
                faults w1 = [] /\
                map Profile._id (docs w1) = map Profile._id (docs w))
      as Hpush.
    { intros w3 Hf3 Hm3.
      destruct (updateOne_clean (ById target)
                  (Push shipping_options_field oid) w3 Hf3)
        as (r0 & w4 & Eu & Hd4 & Hf4).
      unfold bind, ret. rewrite Eu. exists (Some r0), w4.
      repeat split; [assumption |].
      rewrite Hd4. cbn [apply_patch].
      rewrite map_id_update_first by apply push_field_id. assumption. }
    destruct (filter _ (docs w0)) as [| first rest] eqn:Eh.
    + unfold bind at 1, ret at 1. apply Hpush; [reflexivity |].
      subst w2. simpl. congruence.
    + assert (In (Profile._id first) (map Profile._id (docs w2))) as Hin1.
      { subst w2. simpl. apply in_map.
        assert (In first (filter (matches (ByShippingOption oid)) (docs w0)))
          as H by (rewrite Eh; now left).
        apply filter_In in H. apply H. }
      assert (stored_ids_valid (docs w2)) as Hv2.
      { subst w2. simpl. now rewrite Hd. }
      destruct (retrieve_clean (Profile._id first) w2 eq_refl Hv2 Hin1)
        as (p1 & w3 & Er1 & Hd3 & Hf3).
      destruct (updateOne_clean (ById (Profile._id first))
                  (Pull shipping_options_field oid) w3 Hf3)
        as (r1 & w4 & Eu & Hd4 & Hf4).
      unfold bind at 1. unfold bind at 1.
      unfold removeShippingOption, bind at 1. rewrite Er1, Eu.
      unfold ret at 1. apply Hpush; [assumption |].
      rewrite Hd4. cbn [apply_patch].
      rewrite map_id_update_first by apply pull_field_id.
      rewrite Hd3. subst w2. simpl. congruence.
Qed.

Lemma holders_other_option (o : string) (s : Selector)
    (g : Profile.t -> Profile.t) (ds : list Profile.t) :
  (forall d, includes o (Profile.shipping_options (g d))
             = includes o (Profile.shipping_options d)) ->
  List.length (holders o (update_first s g ds)) = List.length (holders o ds).
Proof.
  intros Hg. unfold holders. induction ds as [| d rest IH]; simpl;
    [reflexivity |].
  destruct (matches s d); simpl.
  - rewrite Hg. destruct (includes o _); reflexivity.
  - destruct (includes o _); simpl; now rewrite IH.
Qed.

Lemma includes_push_other (o v : string) (arr : list string) :
  o <> v -> includes o (arr ++ [v]) = includes o arr.
Proof.
  intros Hne. unfold includes. rewrite existsb_app. simpl.
  destruct (String.eqb_spec v o); [congruence |].
  now rewrite !orb_false_r.
Qed.

Lemma includes_pull_other (o v : string) (arr : list string) :
  o <> v -> includes o (pull v arr) = includes o arr.
Proof.
  intros Hne.
  destruct (includes o arr) eqn:E.
  - apply includes_In. apply In_pull. split; [now apply includes_In | assumption].
  - destruct (includes o (pull v arr)) eqn:E'; [| reflexivity].
    apply includes_In, In_pull in E'. destruct E' as [Hin _].
    apply includes_In in Hin. congruence.
Qed.

Lemma addShippingOption_other_options (target optionId o : string)
    (shippingOption : ShippingOption.t) (w w1 : World)
    (r : option WriteResult) :
  shippingOptionService_retrieve optionId = Return shippingOption ->
  o <> ShippingOption._id shippingOption ->
  addShippingOption target optionId w = (Return r, w1) ->
  List.length (holders o (docs w1)) = List.length (holders o (docs w)).
Proof.
  intros Hso Hne.
  unfold addShippingOption, bind at 1.
  destruct (retrieve target w) as [[profile | e] w0] eqn:Er;
    [| discriminate].
  apply retrieve_Return in Er. destruct Er as (_ & _ & Hd & _).
  unfold bind at 1, lift. rewrite Hso.
  set (oid := ShippingOption._id shippingOption) in *.
  destruct (truthy _).
  - unfold ret. intros H. injection H as _ <-. now rewrite Hd.
  - unfold bind at 1.
    destruct (list_ _ w0) as [[profiles | e] w2] eqn:El; [| discriminate].
    apply list_Return in El. destruct El as (_ & Hd2).
    unfold bind at 1.
    assert (forall w3 r3,
              (r0 <- model_updateOne (ById target)
                       (Push shipping_options_field oid) ;;
               ret (Some r0)) w3 = (Return r3, w1) ->
              List.length (holders o (docs w1))
              = List.length (holders o (docs w3))) as Hpush.
    { intros w3 r3. unfold bind, ret.
      destruct (model_updateOne _ _ w3) as [[r0 | e] w4] eqn:Eu;
        [| discriminate].
      intros H. injection H as _ <-.
      apply updateOne_Return in Eu. destruct Eu as (Hu4 & _).
      rewrite Hu4. cbn [apply_patch]. apply holders_other_option.
      intros d. simpl. now apply includes_push_other. }
    destruct profiles as [| first rest].
    + unfold ret at 1. intros H. apply Hpush in H. congruence.
    + unfold bind at 1.
      destruct (removeShippingOption (Profile._id first) oid w2)
        as [[r1 | e] w3] eqn:Erm; [| discriminate].
      apply removeShippingOption_Return in Erm.
      unfold ret at 1. intros H. apply Hpush in H.
      rewrite H, Erm, Hd2, Hd. apply holders_other_option.
      intros d. simpl. now apply includes_pull_other.
Qed.

Lemma same_id_same_doc (ds : list Profile.t) (a b : Profile.t) :
  unique_ids ds -> In a ds -> In b ds ->
  Profile._id a = Profile._id b -> a = b.
Proof.
  unfold unique_ids. induction ds as [| d rest IH]; simpl;
    [intros _ [] |].
  intros Hnd Ha Hb Hid. inversion Hnd as [| x l Hx Hl]; subst.
  destruct Ha as [-> | Ha], Hb as [-> | Hb].
  - reflexivity.
  - exfalso. apply Hx. rewrite Hid. now apply in_map.
  - exfalso. apply Hx. rewrite <- Hid. now apply in_map.
  - now apply IH.
Qed.

Lemma holds_of_holders (oid : string) (ds : list Profile.t)
    (p : Profile.t) :
  unique_ids ds ->
  holders oid ds = [p] ->
  profile_holds (Profile._id p) oid ds = true /\
  forall other, other <> Profile._id p ->
                profile_holds other oid ds = false.
Proof.
  intros Hu Hh.
  assert (In p ds /\ includes oid (Profile.shipping_options p) = true)
    as [Hp Hi].
  { assert (In p (holders oid ds)) as H by (rewrite Hh; now left).
    apply filter_In in H. exact H. }
  unfold profile_holds. split.
  - destruct (find_by_id_some (Profile._id p) ds) as [q Hq];
      [now apply in_map |].
    rewrite Hq. apply find_some in Hq. destruct Hq as [Hqin Hqm].
    simpl in Hqm. apply String.eqb_eq in Hqm.
    now rewrite (same_id_same_doc ds q p Hu Hqin Hp Hqm).
  - intros other Hne.
    destruct (find (matches (ById other)) ds) as [q |] eqn:Hq;
      [| reflexivity].
    apply find_some in Hq. destruct Hq as [Hqin Hqm].
    simpl in Hqm. apply String.eqb_eq in Hqm.
    destruct (includes oid (Profile.shipping_options q)) eqn:Eq;
      [| reflexivity].
    assert (In q (holders oid ds)) as H by (apply filter_In; now split).
    rewrite Hh in H. destruct H as [<- | []]. congruence.
Qed.

(** C3. Let the store hold no two profiles under one id, let the option
    be in at most one profile's option list, and let the validator hand
    back the ids of profiles A and B, two different ids, as they are.
    Whenever [addShippingOption(A, opt)] and then
    [addShippingOption(B, opt)] both succeed, the profile stored under B
    holds the option and the one under A does not; after each of the two
    calls the option is in exactly one profile's list, and every other
    option is in as many lists as before.  In a store whose ids all pass
    the validator and which holds A and B, with no storage fault pending,
    both calls do succeed. *)
Theorem option_exclusive_after_reassignment
    (profileA profileB optionId : string)
    (shippingOption : ShippingOption.t) (w : World) :
  shippingOptionService_retrieve optionId = Return shippingOption ->
  unique_ids (docs w) ->
  exclusive (ShippingOption._id shippingOption) (docs w) ->
  value (objectId_validate profileA) = profileA ->
  value (objectId_validate profileB) = profileB ->
  profileA <> profileB ->
  (forall rA wA rB wB,
     addShippingOption profileA optionId w = (Return rA, wA) ->
     addShippingOption profileB optionId wA = (Return rB, wB) ->
     profile_holds profileB (ShippingOption._id shippingOption) (docs wB)
       = true /\
     profile_holds profileA (ShippingOption._id shippingOption) (docs wB)
       = false /\
     List.length (holders (ShippingOption._id shippingOption) (docs wA)) = 1 /\
     List.length (holders (ShippingOption._id shippingOption) (docs wB)) = 1 /\
     (forall o, o <> ShippingOption._id shippingOption ->
                List.length (holders o (docs wB))
                = List.length (holders o (docs w)))) /\
  (faults w = [] ->
   stored_ids_valid (docs w) ->
   In profileA (map Profile._id (docs w)) ->
   In profileB (map Profile._id (docs w)) ->
   exists rA wA rB wB,
     addShippingOption profileA optionId w = (Return rA, wA) /\
     addShippingOption profileB optionId wA = (Return rB, wB)).
Proof.
  intros Hso Hu Hex HvA HvB Hne. split.
  - intros rA wA rB wB HA HB.
    destruct (addShippingOption_step _ _ _ _ _ _ Hso Hu Hex HvA HA)
      as (HuA & pA & HhA & HidA).
    assert (exclusive (ShippingOption._id shippingOption) (docs wA)) as HexA.
    { unfold exclusive. rewrite HhA. simpl. lia. }
    destruct (addShippingOption_step _ _ _ _ _ _ Hso HuA HexA HvB HB)
      as (HuB & pB & HhB & HidB).
    destruct (holds_of_holders _ _ _ HuB HhB) as [Hyes Hno].
    rewrite HidB in Hyes, Hno.
    repeat split.
    + assumption.
    + now apply Hno.
    + now rewrite HhA.
    + now rewrite HhB.
    + intros o Ho.
      rewrite (addShippingOption_other_options _ _ _ _ _ _ _ Hso Ho HB).
      apply (addShippingOption_other_options _ _ _ _ _ _ _ Hso Ho HA).
  - intros Hf Hv HinA HinB.
    destruct (addShippingOption_returns _ _ _ _ Hso Hf Hv HinA)
      as (rA & wA & HA & HfA & HmA).
    assert (stored_ids_valid (docs wA)) as HvA'.
    { unfold stored_ids_valid. now rewrite HmA. }
    rewrite <- HmA in HinB.
    destruct (addShippingOption_returns _ _ _ _ Hso HfA HvA' HinB)
      as (rB & wB & HB & _).
    now exists rA, wA, rB, wB.
Qed.

(** ** Further properties: [retrieve], [update], [setMetadata] *)

Lemma find_by_id_none (v : string) (ds : list Profile.t) :
  find (matches (ById v)) ds = None <->
  forall p, In p ds -> Profile._id p <> v.
Proof.
  split.
  - intros Hf p Hp Heq. apply (find_none _ _ Hf) in Hp. simpl in Hp.
    rewrite Heq, String.eqb_refl in Hp. discriminate.
  - intros Hall. destruct (find (matches (ById v)) ds) as [p |] eqn:Ef;
      [| reflexivity].
    apply find_some in Ef. destruct Ef as [Hin Hm]. simpl in Hm.
    apply String.eqb_eq in Hm. now apply Hall in Hin.
Qed.

Lemma count_matching_none (s : Selector) (ds : list Profile.t) :
  find (matches s) ds = None -> count_matching s ds = 0.
Proof.
  intros Hf. unfold count_matching.
  destruct (existsb (matches s) ds) eqn:Ee; [| reflexivity].
  apply existsb_exists in Ee. destruct Ee as [x [Hin Hm]].
  apply (find_none _ _ Hf) in Hin. congruence.
Qed.

Lemma update_first_keeps_others (s : Selector) (g : Profile.t -> Profile.t)
    (ds : list Profile.t) (p : Profile.t) :
  In p ds -> matches s p = false -> In p (update_first s g ds).
Proof.
  induction ds as [| d rest IH]; simpl; [intros [] |].
  intros [-> | Hin] Hm.
  - rewrite Hm. now left.
  - destruct (matches s d); right; [assumption | now apply IH].
Qed.

Lemma update_first_length (s : Selector) (g : Profile.t -> Profile.t)
    (ds : list Profile.t) :
  List.length (update_first s g ds) = List.length ds.
Proof.
  induction ds as [| d rest IH]; simpl; [reflexivity |].
  destruct (matches s d); simpl; [reflexivity | now rewrite IH].
Qed.

(** X1. Whatever [retrieve] does, the collection stays as it was.  When it
    returns, the id passed the validator and the profile is a stored one
    carrying the validated id; when it throws, the error is a [MedusaError]
    of type [INVALID_ARGUMENT] (and then the store was not even called),
    [DB_ERROR] or [NOT_FOUND], nothing else. *)
Theorem retrieve_outcomes
    (profileId : string) (w w1 : World) (o : outcome Profile.t) :
  retrieve profileId w = (o, w1) ->
  docs w1 = docs w /\
  match o with
  | Return profile =>
      error (objectId_validate profileId) = None /\
      In profile (docs w) /\
      Profile._id profile = value (objectId_validate profileId)
  | Throw e =>
      exists msg,
        (e = MedusaError INVALID_ARGUMENT msg /\ w1 = w) \/
        e = MedusaError DB_ERROR msg \/
        e = MedusaError NOT_FOUND msg
  end.
Proof.
  intros Hr. split.
  - pose proof (retrieve_docs profileId w) as Hd. now rewrite Hr in Hd.
  - destruct o as [profile | e].
    + pose proof (retrieve_id _ _ _ _ Hr) as Hid.
      apply retrieve_Return in Hr. destruct Hr as (He & Hf & _).
      apply find_some in Hf. destruct Hf as [Hin _]. now repeat split.
    + revert Hr. run.
      destruct (error (objectId_validate profileId)).
      * intros H. injection H as <- <-. eexists. left. now split.
      * destruct (faults w) as [| [msg |] later]; simpl;
          try (destruct (find _ (docs w)); [discriminate |]);
          intros H; injection H as <- <-; eexists;
          right; ((left; reflexivity) || (right; reflexivity)).
Qed.

(** X2. For an id the validator accepts and a lookup that goes through,
    [retrieve] throws [NOT_FOUND], its message quoting the id as it was
    given, exactly when no stored profile carries the validated id. *)
Theorem retrieve_not_found_iff (profileId : string) (w : World) :
  error (objectId_validate profileId) = None ->
  hd None (faults w) = None ->
  (forall p, In p (docs w) ->
             Profile._id p <> value (objectId_validate profileId)) <->
  fst (retrieve profileId w)
  = Throw (MedusaError NOT_FOUND
             ("Shipping Profile with " ++ profileId ++ " was not found")).
Proof.
  intros He Hf. rewrite <- find_by_id_none. run. rewrite He.
  destruct (faults w) as [| [msg |] later]; simpl in *; try discriminate;
    destruct (find _ (docs w)); simpl;
    split; intros H; (reflexivity || discriminate).
Qed.

(** X3. A fault of the store during the lookup of [retrieve], or during the
    write of [update] or of [setMetadata] (id accepted, guards passed,
    string key), reaches the caller as a [DB_ERROR] carrying the fault's
    message; the collection is untouched. *)
Theorem storage_fault_becomes_db_error
    (profileId key : string) (fields : JsObject) (val : JsValue)
    (w : World) (msg : string) (later : list (option string)) :
  error (objectId_validate profileId) = None ->
  faults w = Some msg :: later ->
  truthy (get_prop "metadata" fields) = false ->
  truthy (get_prop "products" fields) = false ->
  truthy (get_prop "shipping_options" fields) = false ->
  let v := value (objectId_validate profileId) in
  retrieve profileId w
  = (Throw (MedusaError DB_ERROR msg),
     mkWorld (docs w) later (log w ++ [FindOne (ById v)])) /\
  update profileId fields w
  = (Throw (MedusaError DB_ERROR msg),
     mkWorld (docs w) later (log w ++ [UpdateOne (ById v) (Set_ fields)])) /\
  setMetadata profileId (JStr key) val w
  = (Throw (MedusaError DB_ERROR msg),
     mkWorld (docs w) later
       (log w ++ [UpdateOne (ById v) (Set_ [("metadata." ++ key, val)])])).
Proof.
  intros He Hf Hm Hp Hs v. subst v. run.
  rewrite He, Hm, Hp, Hs, Hf. repeat split.
Qed.

(** X4. [update] does not look the profile up: with an accepted id, the
    guards passed and no fault, an update addressed to an id under which
    nothing is stored resolves, reporting no match, and changes nothing. *)
Theorem update_unknown_profile_resolves
    (profileId : string) (fields : JsObject) (w : World) :
  error (objectId_validate profileId) = None ->
  hd None (faults w) = None ->
  truthy (get_prop "metadata" fields) = false ->
  truthy (get_prop "products" fields) = false ->
  truthy (get_prop "shipping_options" fields) = false ->
  (forall p, In p (docs w) ->
             Profile._id p <> value (objectId_validate profileId)) ->
  exists w1,
    update profileId fields w = (Return (mkWrite 0), w1) /\
    docs w1 = docs w.
Proof.
  intros He Hf Hm Hp Hs Hnone. apply find_by_id_none in Hnone.
  run. rewrite He, Hm, Hp, Hs.
  rewrite (count_matching_none _ _ Hnone).
  rewrite (update_first_no_match _ _ _ Hnone).
  destruct (faults w) as [| [msg |] later]; simpl in *; try discriminate;
    eexists; split; reflexivity.
Qed.

(** X5. With an accepted id, [setMetadata] rejects every key that is not a
    string (a number, [null], [undefined], a boolean, an array, an object)
    with [INVALID_ARGUMENT], before any store call. *)
Theorem setMetadata_key_must_be_string
    (profileId : string) (key val : JsValue) (w : World) :
  error (objectId_validate profileId) = None ->
  (forall s, key <> JStr s) ->
  setMetadata profileId key val w
  = (Throw (MedusaError INVALID_ARGUMENT
              "Key type is invalid. Metadata keys must be strings"), w).
Proof.
  intros He Hk. run. rewrite He.
  destruct key; try reflexivity. now contradiction (Hk s).
Qed.

Lemma touches_only_refl (id : string) (ds : list Profile.t) :
  touches_only id ds ds.
Proof. split; [reflexivity | now intros p Hp _]. Qed.

Lemma touches_only_update_first (id : string) (g : Profile.t -> Profile.t)
    (ds : list Profile.t) :
  touches_only id ds (update_first (ById id) g ds).
Proof.
  split; [apply update_first_length |].
  intros p Hin Hne. apply update_first_keeps_others; [assumption |].
  simpl. now apply String.eqb_neq.
Qed.

(** X6. [update] and [setMetadata] rewrite at most the first profile stored
    under the validated id: whatever the arguments and the outcome, the
    collection keeps its length and every profile stored under another id
    stays in it. *)
Theorem set_operations_touch_one_profile
    (profileId : string) (fields : JsObject) (key val : JsValue) (w : World) :
  touches_only (value (objectId_validate profileId)) (docs w)
    (docs (snd (update profileId fields w))) /\
  touches_only (value (objectId_validate profileId)) (docs w)
    (docs (snd (setMetadata profileId key val w))).
Proof.
  assert (forall patch,
            touches_only (value (objectId_validate profileId)) (docs w)
              (docs (snd (catch_db (model_updateOne
                        (ById (value (objectId_validate profileId))) patch)
                        w)))) as Hwrite.
  { intros patch. run.
    destruct (faults w) as [| [msg |] later]; simpl;
      (apply touches_only_update_first || apply touches_only_refl). }
  split.
  - unfold update, bind, lift, validateId_, throw.
    destruct (error (objectId_validate profileId));
      [apply touches_only_refl |].
    destruct (truthy (get_prop "metadata" fields));
      [apply touches_only_refl |].
    destruct (truthy (get_prop "products" fields));
      [apply touches_only_refl |].
    destruct (truthy (get_prop "shipping_options" fields));
      [apply touches_only_refl |].
    apply (Hwrite (Set_ fields)).
  - unfold setMetadata, bind, lift, validateId_, throw.
    destruct (error (objectId_validate profileId));
      [apply touches_only_refl |].
    destruct key as [| | b | z | k | elems | props];
      try apply touches_only_refl.
    apply (Hwrite (Set_ [("metadata." ++ k, val)])).
Qed.

(** ** Further properties: [delete] *)

Lemma filter_other_ids (v : string) (ds : list Profile.t) :
  (forall q, In q ds -> Profile._id q <> v) ->
  filter (fun d => negb (Profile._id d =? v)) ds = ds.
Proof.
  induction ds as [| d rest IH]; simpl; [reflexivity |].
  intros Hall.
  destruct (String.eqb_spec (Profile._id d) v) as [E | E]; simpl.
  - exfalso. apply (Hall d); [now left | assumption].
  - f_equal. apply IH. intros q Hq. apply Hall. now right.
Qed.

Lemma delete_first_unique (v : string) (ds : list Profile.t) :
  unique_ids ds ->
  delete_first (ById v) ds
  = filter (fun d => negb (Profile._id d =? v)) ds.
Proof.
  unfold unique_ids. induction ds as [| d rest IH]; simpl; [reflexivity |].
  intros Hnd. inversion Hnd as [| x l Hx Hl]; subst.
  destruct (String.eqb_spec (Profile._id d) v) as [E | E]; simpl.
  - symmetry. apply filter_other_ids.
    intros q Hq Heq. apply Hx. rewrite E, <- Heq. now apply in_map.
  - f_equal. now apply IH.
Qed.

Lemma delete_Some (profileId : string) (w w1 : World) (r : WriteResult) :
  delete profileId w = (Return (Some r), w1) ->
  exists profile,
    find (matches (ById (value (objectId_validate profileId)))) (docs w)
      = Some profile /\
    docs w1
    = delete_first (ById (value (objectId_validate profileId))) (docs w).
Proof.
  unfold delete, try_. unfold bind at 1.
  destruct (retrieve profileId w) as [[profile | e] w0] eqn:Er;
    [| discriminate].
  pose proof (retrieve_id _ _ _ _ Er) as Hid.
  apply retrieve_Return in Er. destruct Er as (_ & Hf & Hd & _).
  rewrite Hid. run.
  destruct (faults w0) as [| [msg |] later]; simpl; try discriminate;
    intros H; injection H as _ <-; exists profile; simpl;
    now rewrite Hd.
Qed.

Lemma delete_leaves_none (profileId : string) (w w1 : World)
    (r : WriteResult) :
  unique_ids (docs w) ->
  delete profileId w = (Return (Some r), w1) ->
  forall p, In p (docs w1) ->
            Profile._id p <> value (objectId_validate profileId).
Proof.
  intros Hu Hd. apply delete_Some in Hd. destruct Hd as (profile & Hf & Hd).
  rewrite delete_first_unique in Hd by assumption.
  intros p Hp. rewrite Hd in Hp. apply filter_In in Hp.
  destruct Hp as [_ Hp]. apply negb_true_iff in Hp.
  now apply String.eqb_neq.
Qed.

(** X7. In a store with unique ids, a [delete] that reports a removal has
    removed exactly the profiles stored under the validated id: none is
    left under that id, and all the others are kept, in their order. *)
Theorem delete_removes_the_profile
    (profileId : string) (w w1 : World) (r : WriteResult) :
  unique_ids (docs w) ->
  delete profileId w = (Return (Some r), w1) ->
  docs w1
  = filter (fun d =>
              negb (Profile._id d =? value (objectId_validate profileId)))
      (docs w) /\
  (forall p, In p (docs w1) ->
             Profile._id p <> value (objectId_validate profileId)) /\
  S (List.length (docs w1)) = List.length (docs w).
Proof.
  intros Hu Hd. apply delete_Some in Hd. destruct Hd as (profile & Hf & Hd).
  rewrite delete_first_unique in Hd by assumption.
  split; [assumption |]. split.
  - intros p Hp. rewrite Hd in Hp. apply filter_In in Hp.
    destruct Hp as [_ Hp]. apply negb_true_iff in Hp.
    now apply String.eqb_neq.
  - rewrite Hd. clear Hd. unfold unique_ids in Hu. revert Hf Hu.
    generalize (value (objectId_validate profileId)) as v.
    intros v. induction (docs w) as [| d rest IH]; simpl; [discriminate |].
    intros Hf Hnd. inversion Hnd as [| x l Hx Hl]; subst.
    destruct (String.eqb_spec (Profile._id d) v) as [E | E]; simpl.
    + f_equal. rewrite filter_other_ids; [reflexivity |].
      intros q Hq Heq. apply Hx. rewrite E, <- Heq. now apply in_map.
    + f_equal. now apply IH.
Qed.

(** X8. In a store with unique ids, once [delete] has removed a profile a
    second [delete] of the same id resolves as a no-op and leaves the
    collection as the first call left it, whatever the store does. *)
Theorem delete_twice
    (profileId : string) (w w1 : World) (r : WriteResult) :
  unique_ids (docs w) ->
  delete profileId w = (Return (Some r), w1) ->
  exists w2,
    delete profileId w1 = (Return None, w2) /\ docs w2 = docs w1.
Proof.
  intros Hu Hd.
  pose proof (delete_leaves_none _ _ _ _ Hu Hd) as Hgone.
  apply find_by_id_none in Hgone.
  unfold delete, try_. unfold bind at 1.
  pose proof (retrieve_docs profileId w1) as Hdocs.
  destruct (retrieve profileId w1) as [[profile | e] w2] eqn:Er;
    simpl in Hdocs.
  - apply retrieve_Return in Er. destruct Er as (_ & Hf & _). congruence.
  - exists w2. split; [reflexivity | assumption].
Qed.

(** X9. [delete] throws nothing but a [DB_ERROR], and when it throws no
    profile has been removed. *)
Theorem delete_throws_only_db_error
    (profileId : string) (w w1 : World) (e : Error) :
  delete profileId w = (Throw e, w1) ->
  (exists msg, e = MedusaError DB_ERROR msg) /\ docs w1 = docs w.
Proof.
  unfold delete, try_. unfold bind at 1.
  pose proof (retrieve_docs profileId w) as Hdocs.
  destruct (retrieve profileId w) as [[profile | e0] w0] eqn:Er;
    simpl in Hdocs; [| discriminate].
  run. destruct (faults w0) as [| [msg |] later]; simpl; try discriminate.
  intros H. injection H as <- <-. split; [now eexists | assumption].
Qed.

(** ** Further properties: the membership operations *)

Lemma map_update_first {B} (f : Profile.t -> B) (s : Selector)
    (g : Profile.t -> Profile.t) (ds : list Profile.t) :
  (forall d, f (g d) = f d) ->
  map f (update_first s g ds) = map f ds.
Proof.
  intros Hg. induction ds as [| d rest IH]; simpl; [reflexivity |].
  destruct (matches s d); simpl; [now rewrite Hg | now rewrite IH].
Qed.

Lemma pull_absent (v : string) (arr : list string) :
  ~ In v arr -> pull v arr = arr.
Proof.
  unfold pull. induction arr as [| x rest IH]; simpl; [reflexivity |].
  intros Hn. destruct (String.eqb_spec x v) as [E | E]; simpl.
  - exfalso. apply Hn. now left.
  - f_equal. apply IH. intros Hin. apply Hn. now right.
Qed.

Lemma pull_pushed (v : string) (arr : list string) :
  ~ In v arr -> pull v (arr ++ [v]) = arr.
Proof.
  intros Hn. unfold pull. rewrite filter_app. simpl.
  rewrite String.eqb_refl. simpl. rewrite app_nil_r.
  now apply pull_absent.
Qed.

Lemma update_first_twice (s : Selector) (f g : Profile.t -> Profile.t)
    (ds : list Profile.t) :
  (forall d, matches s d = true -> matches s (f d) = true) ->
  update_first s g (update_first s f ds)
  = update_first s (fun d => g (f d)) ds.
Proof.
  intros Hf. induction ds as [| d rest IH]; simpl; [reflexivity |].
  destruct (matches s d) eqn:Em; simpl.
  - now rewrite (Hf d Em).
  - now rewrite Em, IH.
Qed.

Lemma update_first_fixed (s : Selector) (g : Profile.t -> Profile.t)
    (ds : list Profile.t) (d : Profile.t) :
  find (matches s) ds = Some d -> g d = d -> update_first s g ds = ds.
Proof.
  induction ds as [| x rest IH]; simpl; [discriminate |].
  destruct (matches s x).
  - intros H Hg. injection H as ->. now rewrite Hg.
  - intros H Hg. now rewrite IH.
Qed.

(** What the collection can look like after [addProduct]. *)
Lemma addProduct_docs (profileId productId : string) (w w1 : World)
    (o : outcome (option WriteResult)) :
  addProduct profileId productId w = (o, w1) ->
  docs w1 = docs w \/
  exists profile product,
    find (matches (ById (value (objectId_validate profileId)))) (docs w)
      = Some profile /\
    productService_retrieve productId = Return product /\
    truthy (js_find (fun p => p =? Product._id product)
                    (Profile.products profile)) = false /\
    docs w1
    = update_first (ById (value (objectId_validate profileId)))
        (push_field products_field (Product._id product)) (docs w).
Proof.
  unfold addProduct, bind at 1.
  pose proof (retrieve_docs profileId w) as Hd.
  destruct (retrieve profileId w) as [[profile | e0] w0] eqn:Er;
    simpl in Hd; [| intros H; injection H as _ <-; now left].
  pose proof (retrieve_id _ _ _ _ Er) as Hid.
  apply retrieve_Return in Er. destruct Er as (_ & Hf & _).
  unfold bind, lift, ret.
  destruct (productService_retrieve productId) as [product | e1] eqn:Ep;
    [| intros H; injection H as _ <-; now left].
  destruct (truthy _) eqn:Et; [intros H; injection H as _ <-; now left |].
  destruct (model_updateOne _ _ w0) as [[r | e2] w2] eqn:Eu;
    intros H; injection H as _ <-.
  - apply updateOne_Return in Eu. destruct Eu as (Hu & _).
    right. exists profile, product.
    split; [assumption | split; [reflexivity | split; [assumption |]]].
    now rewrite Hu, Hd, Hid.
  - apply updateOne_Throw in Eu. left. congruence.
Qed.

(** What the collection can look like after [removeShippingOption]. *)
Lemma removeShippingOption_docs (profileId optionId : string) (w w1 : World)
    (o : outcome WriteResult) :
  removeShippingOption profileId optionId w = (o, w1) ->
  docs w1 = docs w \/
  docs w1
  = update_first (ById profileId)
      (pull_field shipping_options_field optionId) (docs w).
Proof.
  unfold removeShippingOption, bind.
  pose proof (retrieve_docs profileId w) as Hd.
  destruct (retrieve profileId w) as [[profile | e0] w0] eqn:Er;
    simpl in Hd; [| intros H; injection H as _ <-; now left].
  destruct (model_updateOne _ _ w0) as [[r | e2] w2] eqn:Eu;
    intros H; injection H as _ <-.
  - apply updateOne_Return in Eu. destruct Eu as (Hu & _).
    right. now rewrite Hu, Hd.
  - apply updateOne_Throw in Eu. left. congruence.
Qed.

(** X10. After a successful [addProduct] the profile stored under the
    validated id lists the id of the product the product service returned,
    and no other profile has changed. *)
Theorem addProduct_adds_member
    (profileId productId : string) (w w1 : World) (r : option WriteResult) :
  addProduct profileId productId w = (Return r, w1) ->
  (exists profile product,
     productService_retrieve productId = Return product /\
     find (matches (ById (value (objectId_validate profileId)))) (docs w1)
       = Some profile /\
     In (Product._id product) (Profile.products profile)) /\
  touches_only (value (objectId_validate profileId)) (docs w) (docs w1).
Proof.
  intros H. split; [now apply addProduct_Return in H |].
  destruct (addProduct_docs _ _ _ _ _ H) as [Hd | Hd].
  - rewrite Hd. apply touches_only_refl.
  - destruct Hd as (profile & product & _ & _ & _ & ->).
    apply touches_only_update_first.
Qed.

Lemma js_find_empty_falsy (arr : list string) :
  truthy (js_find (fun p => p =? "") arr) = false.
Proof.
  unfold js_find. destruct (find _ arr) as [x |] eqn:Ef; [| reflexivity].
  apply find_some in Ef. destruct Ef as [_ Heq].
  apply String.eqb_eq in Heq. now subst.
Qed.

Lemma removeProduct_Return (profileId productId : string) (w w1 : World)
    (r : option WriteResult) :
  removeProduct profileId productId w = (Return r, w1) ->
  exists profile,
    find (matches (ById (value (objectId_validate profileId)))) (docs w)
      = Some profile /\
    ((truthy (js_find (fun p => p =? productId) (Profile.products profile))
        = false /\ docs w1 = docs w) \/
     (truthy (js_find (fun p => p =? productId) (Profile.products profile))
        = true /\
      docs w1
      = update_first (ById (value (objectId_validate profileId)))
          (pull_field products_field productId) (docs w))).
Proof.
  unfold removeProduct, bind at 1.
  destruct (retrieve profileId w) as [[profile | e0] w0] eqn:Er;
    [| discriminate].
  pose proof (retrieve_id _ _ _ _ Er) as Hid.
  apply retrieve_Return in Er. destruct Er as (_ & Hf & Hd & _).
  unfold bind, ret. exists profile. split; [assumption |].
  destruct (truthy _) eqn:Et; simpl in *.
  - destruct (model_updateOne _ _ w0) as [[r0 | e2] w2] eqn:Eu;
      [| discriminate].
    injection H as _ <-. apply updateOne_Return in Eu.
    destruct Eu as (Hu & _). right. split; [reflexivity |].
    now rewrite Hu, Hd, Hid.
  - injection H as _ <-. left. now split.
Qed.

(** X11. After a successful [removeProduct] of a non-empty product id the
    profile stored under the validated id no longer lists it, and no other
    profile has changed.  The empty string is never removed: the guard
    takes [find]'s answer for "not a member" and the call is a no-op. *)
Theorem removeProduct_removes_member
    (profileId productId : string) (w w1 : World) (r : option WriteResult) :
  removeProduct profileId productId w = (Return r, w1) ->
  (productId <> "" ->
   exists profile,
     find (matches (ById (value (objectId_validate profileId)))) (docs w1)
       = Some profile /\
     ~ In productId (Profile.products profile)) /\
  (productId = "" -> docs w1 = docs w) /\
  touches_only (value (objectId_validate profileId)) (docs w) (docs w1).
Proof.
  intros H. apply removeProduct_Return in H.
  destruct H as (profile & Hf & [[Ht Hd] | [Ht Hd]]); rewrite Hd.
  - split; [| split].
    + intros Hne. exists profile. split; [assumption |].
      intros Hin. rewrite In_js_find_truthy in Ht by assumption.
      discriminate.
    + reflexivity.
    + apply touches_only_refl.
  - split; [| split].
    + intros _. exists (pull_field products_field productId profile).
      split.
      * apply find_update_first; [assumption |].
        apply find_some in Hf. destruct Hf as [_ Hm]. exact Hm.
      * simpl. intros Hin. apply In_pull in Hin.
        destruct Hin as [_ Hin]. now apply Hin.
    + intros ->. rewrite js_find_empty_falsy in Ht. discriminate.
    + apply touches_only_update_first.
Qed.

Lemma pull_push_products (id : string) (d : Profile.t) :
  ~ In id (Profile.products d) ->
  pull_field products_field id (push_field products_field id d) = d.
Proof.
  intros Hn. destruct d as [i nm ps os md]. simpl in *.
  now rewrite pull_pushed.
Qed.

(** X12. Round trip.  When the product service returns the product under
    the id it was asked for, that id is not empty and the profile does not
    list it yet, a successful [addProduct] followed by a successful
    [removeProduct] with the same arguments leaves the collection exactly
    as it was before the two calls. *)
Theorem addProduct_then_removeProduct
    (profileId productId : string) (w wA wR : World)
    (rA rR : option WriteResult) :
  productService_retrieve productId = Return (Product.mk productId) ->
  productId <> "" ->
  (forall profile,
     find (matches (ById (value (objectId_validate profileId)))) (docs w)
       = Some profile ->
     ~ In productId (Profile.products profile)) ->
  addProduct profileId productId w = (Return rA, wA) ->
  removeProduct profileId productId wA = (Return rR, wR) ->
  docs wR = docs w.
Proof.
  intros Hp Hne Hfresh HA HR.
  apply removeProduct_Return in HR.
  destruct HR as (profileA & HfA & HR).
  destruct (addProduct_docs _ _ _ _ _ HA) as [Hd | Hd].
  - rewrite Hd in HfA. specialize (Hfresh _ HfA).
    destruct HR as [[_ HdR] | [Ht _]]; [congruence |].
    apply js_find_truthy_In in Ht. contradiction.
  - destruct Hd as (profile & product & Hf & Hp' & _ & Hd).
    rewrite Hp in Hp'. injection Hp' as <-. simpl in Hd.
    specialize (Hfresh _ Hf).
    assert (profileA = push_field products_field productId profile) as ->.
    { rewrite Hd in HfA.
      rewrite (find_update_first _ _ _ profile) in HfA; [congruence | | ];
        [assumption |].
      apply find_some in Hf. destruct Hf as [_ Hm]. exact Hm. }
    destruct HR as [[Ht _] | [_ HdR]].
    + rewrite In_js_find_truthy in Ht; [discriminate | | assumption].
      simpl. apply in_or_app. right. now left.
    + rewrite HdR, Hd, update_first_twice.
      * apply (update_first_fixed _ _ _ profile); [assumption |].
        now apply pull_push_products.
      * intros d Hm. exact Hm.
Qed.

(** X13. The writes of the membership operations carry no [DB_ERROR]
    wrapper: when the profile lookup has succeeded and the store fails the
    write that follows, [removeShippingOption], [addProduct] (product
    found, not yet listed) and [removeProduct] (non-empty id, listed) throw
    the store's own error, and the collection is untouched. *)
Theorem membership_write_fault_not_wrapped
    (profileId id : string) (w w0 : World) (profile : Profile.t)
    (msg : string) (later : list (option string)) :
  retrieve profileId w = (Return profile, w0) ->
  faults w0 = Some msg :: later ->
  (exists w1,
     removeShippingOption profileId id w = (Throw (StoreFault msg), w1) /\
     docs w1 = docs w) /\
  (forall product,
     productService_retrieve id = Return product ->
     ~ In (Product._id product) (Profile.products profile) ->
     exists w1,
       addProduct profileId id w = (Throw (StoreFault msg), w1) /\
       docs w1 = docs w) /\
  (In id (Profile.products profile) -> id <> "" ->
   exists w1,
     removeProduct profileId id w = (Throw (StoreFault msg), w1) /\
     docs w1 = docs w).
Proof.
  intros Hr Hf.
  pose proof (retrieve_docs profileId w) as Hd. rewrite Hr in Hd.
  simpl in Hd.
  assert (forall s p,
            model_updateOne s p w0
            = (Throw (StoreFault msg),
               mkWorld (docs w0) later (log w0 ++ [UpdateOne s p])))
    as Hwrite.
  { intros s p. unfold model_updateOne, store_call. now rewrite Hf. }
  split; [| split].
  - unfold removeShippingOption, bind. rewrite Hr, Hwrite.
    eexists. split; [reflexivity | exact Hd].
  - intros product Hp Hn. unfold addProduct, bind at 1. rewrite Hr.
    unfold bind, lift, ret. rewrite Hp.
    destruct (truthy _) eqn:Et.
    + apply js_find_truthy_In in Et. contradiction.
    + rewrite Hwrite. eexists. split; [reflexivity | exact Hd].
  - intros Hin Hne. unfold removeProduct, bind at 1. rewrite Hr.
    rewrite (In_js_find_truthy _ _ Hin Hne). simpl.
    unfold bind. rewrite Hwrite.
    eexists. split; [reflexivity | exact Hd].
Qed.

(** X14. The membership operations fail before they write.  When the
    profile lookup throws, each of the four throws that very error; when
    the lookup succeeds and the product service (for [addProduct]) or the
    option service (for [addShippingOption]) throws, that error is thrown
    as it is.  In both cases the world is the one the lookup left: the
    profile lookup is the only store call made. *)
Theorem membership_operations_fail_before_writing
    (profileId id : string) (w w0 : World) (o : outcome Profile.t) :
  retrieve profileId w = (o, w0) ->
  match o with
  | Throw e =>
      addProduct profileId id w = (Throw e, w0) /\
      removeProduct profileId id w = (Throw e, w0) /\
      addShippingOption profileId id w = (Throw e, w0) /\
      removeShippingOption profileId id w = (Throw e, w0)
  | Return _ =>
      (forall e, productService_retrieve id = Throw e ->
                 addProduct profileId id w = (Throw e, w0)) /\
      (forall e, shippingOptionService_retrieve id = Throw e ->
                 addShippingOption profileId id w = (Throw e, w0))
  end.
Proof.
  intros Hr. destruct o as [profile | e].
  - split; intros e He.
    + unfold addProduct, bind at 1. rewrite Hr.
      unfold bind, lift. now rewrite He.
    + unfold addShippingOption, bind at 1. rewrite Hr.
      unfold bind at 1, lift. now rewrite He.
  - unfold addProduct, removeProduct, addShippingOption,
      removeShippingOption.
    repeat split; unfold bind at 1; now rewrite Hr.
Qed.

Lemma pull_field_absent (oid : string) (d : Profile.t) :
  includes oid (Profile.shipping_options d) = false ->
  pull_field shipping_options_field oid d = d.
Proof.
  intros Hi. destruct d as [i nm ps os md]. simpl in *.
  rewrite pull_absent; [reflexivity |].
  intros Hin. apply includes_In in Hin. congruence.
Qed.

Lemma pull_harmless (profileId oid : string) (ds : list Profile.t) :
  profile_holds profileId oid ds = false ->
  update_first (ById profileId) (pull_field shipping_options_field oid) ds
  = ds.
Proof.
  unfold profile_holds.
  destruct (find (matches (ById profileId)) ds) as [d |] eqn:Ef.
  - intros Hi. apply (update_first_fixed _ _ _ d); [assumption |].
    now apply pull_field_absent.
  - intros _. now apply update_first_no_match.
Qed.

Lemma pull_releases (profileId oid : string) (ds : list Profile.t) :
  profile_holds profileId oid
    (update_first (ById profileId)
       (pull_field shipping_options_field oid) ds)
  = false.
Proof.
  unfold profile_holds.
  destruct (find (matches (ById profileId)) ds) as [d |] eqn:Ef.
  - rewrite (find_update_first _ _ _ d); [| assumption |].
    + simpl. apply includes_pull.
    + apply find_some in Ef. destruct Ef as [_ Hm]. exact Hm.
  - rewrite update_first_no_match by assumption. now rewrite Ef.
Qed.

(** X15. After a successful [removeShippingOption] the profile stored under
    the given id does not hold the option, and no profile stored under
    another id has changed. *)
Theorem removeShippingOption_removes
    (profileId optionId : string) (w w1 : World) (r : WriteResult) :
  removeShippingOption profileId optionId w = (Return r, w1) ->
  profile_holds profileId optionId (docs w1) = false /\
  touches_only profileId (docs w) (docs w1).
Proof.
  intros H. apply removeShippingOption_Return in H. rewrite H.
  split; [apply pull_releases | apply touches_only_update_first].
Qed.

(** X16. Removing an option the profile does not hold is harmless: a
    [removeShippingOption] on such a profile, successful or not, leaves the
    collection exactly as it was.  Hence after one successful
    [removeShippingOption] a second one changes nothing. *)
Theorem removeShippingOption_idempotent
    (profileId optionId : string) (w : World) :
  (profile_holds profileId optionId (docs w) = false ->
   docs (snd (removeShippingOption profileId optionId w)) = docs w) /\
  (forall r w1,
     removeShippingOption profileId optionId w = (Return r, w1) ->
     docs (snd (removeShippingOption profileId optionId w1)) = docs w1).
Proof.
  assert (forall w0,
            profile_holds profileId optionId (docs w0) = false ->
            docs (snd (removeShippingOption profileId optionId w0))
            = docs w0) as Hharmless.
  { intros w0 Hh.
    destruct (removeShippingOption profileId optionId w0) as [o w1] eqn:E.
    simpl. destruct (removeShippingOption_docs _ _ _ _ _ E) as [Hd | Hd];
      [assumption |].
    rewrite Hd. now apply pull_harmless. }
  split; [apply Hharmless |].
  intros r w1 H. apply Hharmless.
  apply removeShippingOption_Return in H. rewrite H. apply pull_releases.
Qed.

Lemma addShippingOption_Return_member (target optionId : string)
    (shippingOption : ShippingOption.t) (w w1 : World)
    (r : option WriteResult) :
  shippingOptionService_retrieve optionId = Return shippingOption ->
  value (objectId_validate target) = target ->
  addShippingOption target optionId w = (Return r, w1) ->
  exists p,
    find (matches (ById target)) (docs w1) = Some p /\
    In (ShippingOption._id shippingOption) (Profile.shipping_options p).
Proof.
  intros Hso Hv.
  unfold addShippingOption, bind at 1.
  destruct (retrieve target w) as [[profile | e] w0] eqn:Er;
    [| discriminate].
  apply retrieve_Return in Er. destruct Er as (_ & Hf & Hd & _).
  rewrite Hv in Hf.
  unfold bind at 1, lift. rewrite Hso.
  set (oid := ShippingOption._id shippingOption) in *.
  destruct (truthy _) eqn:Et.
  - unfold ret. intros H. injection H as _ <-. rewrite Hd.
    exists profile. split; [assumption | now apply js_find_truthy_In].
  - unfold bind at 1.
    destruct (list_ _ w0) as [[profiles | e] w2] eqn:El; [| discriminate].
    apply list_Return in El. destruct El as (_ & Hd2).
    unfold bind at 1.
    assert (forall w3 r3,
              map Profile._id (docs w3) = map Profile._id (docs w) ->
              (r0 <- model_updateOne (ById target)
                       (Push shipping_options_field oid) ;;
               ret (Some r0)) w3 = (Return r3, w1) ->
              exists p, find (matches (ById target)) (docs w1) = Some p /\
                        In oid (Profile.shipping_options p)) as Hpush.
    { intros w3 r3 Hm3. unfold bind, ret.
      destruct (model_updateOne _ _ w3) as [[r0 | e] w4] eqn:Eu;
        [| discriminate].
      intros H. injection H as _ <-.
      apply updateOne_Return in Eu. destruct Eu as (Hu4 & _).
      destruct (find_by_id_some target (docs w3)) as [p3 Hp3].
      { rewrite Hm3. now apply (find_In_ids _ _ profile). }
      exists (push_field shipping_options_field oid p3).
      rewrite Hu4. cbn [apply_patch]. split.
      - apply find_update_first; [assumption |].
        apply find_some in Hp3. destruct Hp3 as [_ Hm]. exact Hm.
      - simpl. apply in_or_app. right. now left. }
    destruct profiles as [| first rest].
    + unfold ret at 1. apply Hpush. congruence.
    + unfold bind at 1.
      destruct (removeShippingOption (Profile._id first) oid w2)
        as [[r1 | e] w3] eqn:Erm; [| discriminate].
      apply removeShippingOption_Return in Erm.
      unfold ret at 1. apply Hpush.
      rewrite Erm, map_id_update_first by apply pull_field_id.
      congruence.
Qed.

(** X17. When the validator hands the profile id back unchanged and the
    option service returns an option with a non-empty id, a successful
    [addShippingOption] leaves the profile holding the option, and a
    second call with the same arguments changes no profile. *)
Theorem addShippingOption_idempotent
    (profileId optionId : string) (shippingOption : ShippingOption.t)
    (w w1 : World) (r : option WriteResult) :
  shippingOptionService_retrieve optionId = Return shippingOption ->
  ShippingOption._id shippingOption <> "" ->
  value (objectId_validate profileId) = profileId ->
  addShippingOption profileId optionId w = (Return r, w1) ->
  profile_holds profileId (ShippingOption._id shippingOption) (docs w1)
    = true /\
  docs (snd (addShippingOption profileId optionId w1)) = docs w1.
Proof.
  intros Hso Hne Hv H.
  destruct (addShippingOption_Return_member _ _ _ _ _ _ Hso Hv H)
    as (p & Hf & Hin).
  split.
  - unfold profile_holds. rewrite Hf. now apply includes_In.
  - unfold addShippingOption, bind at 1.
    pose proof (retrieve_docs profileId w1) as Hd.
    destruct (retrieve profileId w1) as [[profile | e] w2] eqn:Er;
      simpl in Hd; [| assumption].
    apply retrieve_Return in Er. destruct Er as (_ & Hf' & _).
    rewrite Hv in Hf'. assert (profile = p) as -> by congruence.
    unfold bind at 1, lift. rewrite Hso.
    rewrite In_js_find_truthy by assumption. assumption.
Qed.

(** What the collection can look like after [addShippingOption]: at most
    one pull of the option from one profile, then at most one push of it to
    the profile addressed. *)
Lemma addShippingOption_docs (target optionId : string) (w w1 : World)
    (o : outcome (option WriteResult)) :
  addShippingOption target optionId w = (o, w1) ->
  exists oid ds,
    (ds = docs w \/
     exists holder,
       ds = update_first (ById holder)
              (pull_field shipping_options_field oid) (docs w)) /\
    (docs w1 = ds \/
     docs w1
     = update_first (ById target) (push_field shipping_options_field oid)
         ds).
Proof.
  unfold addShippingOption, bind at 1.
  pose proof (retrieve_docs target w) as Hd.
  destruct (retrieve target w) as [[profile | e] w0] eqn:Er; simpl in Hd;
    [| intros H; injection H as _ <-; exists "", (docs w);
       split; left; [reflexivity | assumption]].
  unfold bind at 1, lift.
  destruct (shippingOptionService_retrieve optionId)
    as [shippingOption | e];
    [| intros H; injection H as _ <-; exists "", (docs w);
       split; left; [reflexivity | assumption]].
  set (oid := ShippingOption._id shippingOption) in *.
  destruct (truthy _);
    [unfold ret; intros H; injection H as _ <-; exists oid, (docs w);
     split; left; [reflexivity | assumption] |].
  unfold bind at 1.
  pose proof (list_Return (ByShippingOption oid) w0) as Hl.
  destruct (list_ _ w0) as [[profiles | e] w2] eqn:El.
  - destruct (Hl _ _ eq_refl) as (_ & Hd2). clear Hl.
    unfold bind at 1.
    assert (forall w3,
              (r0 <- model_updateOne (ById target)
                       (Push shipping_options_field oid) ;;
               ret (Some r0)) w3 = (o, w1) ->
              docs w1 = docs w3 \/
              docs w1
              = update_first (ById target)
                  (push_field shipping_options_field oid) (docs w3))
      as Hpush.
    { intros w3. unfold bind, ret.
      destruct (model_updateOne _ _ w3) as [[r0 | e] w4] eqn:Eu;
        intros H; injection H as _ <-.
      - apply updateOne_Return in Eu. destruct Eu as (Hu4 & _).
        right. exact Hu4.
      - apply updateOne_Throw in Eu. now left. }
    destruct profiles as [| first rest].
    + unfold ret at 1. intros H. apply Hpush in H.
      exists oid, (docs w). split; [now left |]. rewrite <- Hd, <- Hd2.
      exact H.
    + unfold bind at 1.
      destruct (removeShippingOption (Profile._id first) oid w2)
        as [[r1 | e] w3] eqn:Erm.
      * apply removeShippingOption_Return in Erm.
        unfold ret at 1. intros H. apply Hpush in H.
        exists oid, (docs w3). split; [| exact H].
        right. exists (Profile._id first). rewrite Erm. congruence.
      * intros H. injection H as _ <-.
        destruct (removeShippingOption_docs _ _ _ _ _ Erm) as [Hd3 | Hd3].
        -- exists oid, (docs w). split; left; [reflexivity | congruence].
        -- exists oid, (docs w3). split; [| now left].
           right. exists (Profile._id first). rewrite Hd3. congruence.
  - clear Hl. intros H. injection H as _ <-.
    unfold list_, model_find, store_call in El.
    destruct (faults w0) as [| [msg |] later]; simpl in El;
      try discriminate.
    injection El as _ <-. simpl.
    exists oid, (docs w). split; left; [reflexivity | assumption].
Qed.

(** X18. The membership operations stay within their field and never add,
    drop or re-identify a profile.  Whatever the arguments and the outcome,
    [addProduct] and [removeProduct] leave the ids and the option lists of
    all profiles as they were, and [addShippingOption] and
    [removeShippingOption] leave the ids and the product lists as they
    were. *)
Theorem membership_operations_frame
    (profileId id : string) (w : World) :
  (same_field Profile._id (docs w)
     (docs (snd (addProduct profileId id w))) /\
   same_field Profile.shipping_options (docs w)
     (docs (snd (addProduct profileId id w)))) /\
  (same_field Profile._id (docs w)
     (docs (snd (removeProduct profileId id w))) /\
   same_field Profile.shipping_options (docs w)
     (docs (snd (removeProduct profileId id w)))) /\
  (same_field Profile._id (docs w)
     (docs (snd (addShippingOption profileId id w))) /\
   same_field Profile.products (docs w)
     (docs (snd (addShippingOption profileId id w)))) /\
  (same_field Profile._id (docs w)
     (docs (snd (removeShippingOption profileId id w))) /\
   same_field Profile.products (docs w)
     (docs (snd (removeShippingOption profileId id w)))).
Proof.
  unfold same_field.
  split; [| split; [| split]].
  - destruct (addProduct profileId id w) as [o w1] eqn:E. simpl.
    destruct (addProduct_docs _ _ _ _ _ E)
      as [-> | (profile & product & _ & _ & _ & ->)];
      [now split |].
    split; apply map_update_first; intros d; reflexivity.
  - destruct (removeProduct profileId id w) as [o w1] eqn:E. simpl.
    revert E. unfold removeProduct, bind at 1.
    pose proof (retrieve_docs profileId w) as Hd.
    destruct (retrieve profileId w) as [[profile | e0] w0]; simpl in Hd;
      [| intros H; injection H as _ <-; rewrite Hd; now split].
    unfold bind, ret.
    destruct (truthy _); simpl;
      [| intros H; injection H as _ <-; rewrite Hd; now split].
    destruct (model_updateOne _ _ w0) as [[r | e2] w2] eqn:Eu;
      intros H; injection H as _ <-.
    + apply updateOne_Return in Eu. destruct Eu as (-> & _).
      rewrite Hd. cbn [apply_patch].
      split; apply map_update_first; intros d; reflexivity.
    + apply updateOne_Throw in Eu. rewrite Eu, Hd. now split.
  - destruct (addShippingOption profileId id w) as [o w1] eqn:E. simpl.
    destruct (addShippingOption_docs _ _ _ _ _ E)
      as (oid & ds & Hds & Hw1).
    assert (map Profile._id ds = map Profile._id (docs w) /\
            map Profile.products ds = map Profile.products (docs w))
      as [Hi Hp].
    { destruct Hds as [-> | [holder ->]]; [now split |].
      split; apply map_update_first; intros d; reflexivity. }
    destruct Hw1 as [-> | ->]; [now split |].
    rewrite <- Hi, <- Hp.
    split; apply map_update_first; intros d; reflexivity.
  - destruct (removeShippingOption profileId id w) as [o w1] eqn:E. simpl.
    destruct (removeShippingOption_docs _ _ _ _ _ E) as [-> | ->];
      [now split |].
    split; apply map_update_first; intros d; reflexivity.
Qed.

Lemma retrieve_next (id : string) (w : World)
    (later : list (option string)) :
  faults w = None :: later ->
  stored_ids_valid (docs w) ->
  In id (map Profile._id (docs w)) ->
  exists p,
    find (matches (ById id)) (docs w) = Some p /\
    retrieve id w
    = (Return p, mkWorld (docs w) later (log w ++ [FindOne (ById id)])).
Proof.
  intros Hf Hv Hin. destruct (Hv _ Hin) as [He Hval].
  destruct (find_by_id_some _ _ Hin) as [p Hp].
  exists p. split; [assumption |].
  run. rewrite He, Hf, Hval. simpl. now rewrite Hp.
Qed.

(** X19. [addShippingOption] is not atomic.  In a store with unique, valid
    ids where exactly one profile, not the target, holds the option: when
    the two lookups, the list query and the detaching [$pull] go through
    and the store then fails the [$push], the call throws the store's
    error and the option is left in no profile at all. *)
Theorem addShippingOption_fault_after_detach
    (target optionId : string) (shippingOption : ShippingOption.t)
    (holder : Profile.t) (w : World) (msg : string)
    (later : list (option string)) :
  shippingOptionService_retrieve optionId = Return shippingOption ->
  unique_ids (docs w) ->
  stored_ids_valid (docs w) ->
  In target (map Profile._id (docs w)) ->
  holders (ShippingOption._id shippingOption) (docs w) = [holder] ->
  Profile._id holder <> target ->
  faults w = None :: None :: None :: None :: Some msg :: later ->
  exists w1,
    addShippingOption target optionId w = (Throw (StoreFault msg), w1) /\
    holders (ShippingOption._id shippingOption) (docs w1) = [] /\
    faults w1 = later.
Proof.
  intros Hso Hu Hv Hin Hh Hne Hf.
  set (oid := ShippingOption._id shippingOption) in *.
  destruct (retrieve_next target w _ Hf Hv Hin) as (p & Hp & Er).
  assert (In holder (docs w) /\
          includes oid (Profile.shipping_options holder) = true)
    as [Hhin Hhi].
  { assert (In holder (holders oid (docs w))) as H by (rewrite Hh; now left).
    apply filter_In in H. exact H. }
  assert (truthy (js_find (fun o => o =? oid) (Profile.shipping_options p))
          = false) as Hguard.
  { destruct (truthy _) eqn:Et; [| reflexivity].
    apply js_find_truthy_In in Et. exfalso. apply Hne.
    assert (In p (holders oid (docs w))) as H.
    { apply filter_In. apply find_some in Hp. destruct Hp as [Hpin _].
      split; [assumption | now apply includes_In]. }
    rewrite Hh in H. destruct H as [-> | []].
    apply find_some in Hp. destruct Hp as [_ Hm]. simpl in Hm.
    now apply String.eqb_eq in Hm. }
  unfold addShippingOption, bind at 1. rewrite Er.
  unfold bind at 1, lift. rewrite Hso. fold oid. rewrite Hguard.
  unfold bind at 1. unfold list_, model_find, store_call at 1.
  cbn [faults docs log fst snd].
  fold (holders oid (docs w)). rewrite Hh.
  unfold bind at 1. unfold bind at 1.
  set (w2 := mkWorld (docs w) _ _).
  assert (In (Profile._id holder) (map Profile._id (docs w2))) as Hin2
    by (subst w2; simpl; now apply in_map).
  destruct (retrieve_next (Profile._id holder) w2 _ eq_refl Hv Hin2)
    as (h' & Hh' & Er2).
  unfold removeShippingOption, bind at 1. rewrite Er2.
  unfold model_updateOne, store_call, bind, ret.
  cbn [faults docs log fst snd apply_patch].
  eexists. split; [reflexivity |]. cbn [faults docs].
  split; [| reflexivity]. subst w2. cbn [docs].
  now apply holders_pull.
Qed.

(** ** Further properties: [getProductsInCart_] and [fetchCartOptions] *)

Lemma filter_pull_swap (acc : list string) (id : string) (l : list string) :
  filter (fun x => negb (includes x (acc ++ [id]))) l
  = filter (fun x => negb (includes x acc)) (pull id l).
Proof.
  unfold pull. induction l as [| x rest IH]; simpl; [reflexivity |].
  assert (includes x (acc ++ [id]) = includes x acc || (x =? id)) as ->.
  { unfold includes. rewrite existsb_app. simpl.
    rewrite orb_false_r. now rewrite (String.eqb_sym id x). }
  destruct (x =? id); simpl.
  - rewrite orb_true_r. simpl. exact IH.
  - rewrite orb_false_r. destruct (includes x acc); simpl;
      [exact IH | now rewrite IH].
Qed.

Lemma filter_pull_member (acc : list string) (id : string)
    (l : list string) :
  includes id acc = true ->
  filter (fun x => negb (includes x acc)) (pull id l)
  = filter (fun x => negb (includes x acc)) l.
Proof.
  intros Hi. unfold pull. induction l as [| x rest IH]; simpl;
    [reflexivity |].
  destruct (String.eqb_spec x id) as [-> | E]; simpl.
  - now rewrite Hi.
  - now rewrite IH.
Qed.

Lemma fold_push_distinct (ids acc : list string) :
  fold_left push_unless_included ids acc
  = (acc ++ filter (fun x => negb (includes x acc))
              (distinct_in_order ids))%list.
Proof.
  revert acc. induction ids as [| id rest IH]; intros acc; simpl.
  - now rewrite app_nil_r.
  - rewrite IH. unfold push_unless_included.
    destruct (includes id acc) eqn:Ei; simpl.
    + now rewrite filter_pull_member.
    + rewrite <- app_assoc. simpl. now rewrite filter_pull_swap.
Qed.

(** X20. [getProductsInCart_] lists the product ids of the cart in the
    order in which the cart first refers to them, reading the line items
    from first to last and the sub-items of an array content in their
    order; a cart whose references are all different gets them back as
    they are. *)
Theorem getProductsInCart_first_occurrence_order (cart : Cart.t) :
  getProductsInCart_ cart
  = distinct_in_order (referenced_product_ids cart) /\
  (NoDup (referenced_product_ids cart) ->
   getProductsInCart_ cart = referenced_product_ids cart).
Proof.
  assert (getProductsInCart_ cart
          = distinct_in_order (referenced_product_ids cart)) as Hd.
  { rewrite getProductsInCart_fold, fold_push_distinct. simpl.
    generalize (distinct_in_order (referenced_product_ids cart)).
    intros l. induction l as [| x rest IH]; simpl; [reflexivity |].
    now rewrite IH. }
  split; [exact Hd |].
  rewrite Hd. generalize (referenced_product_ids cart). intros ids Hnd.
  induction Hnd as [| id rest Hn Hnd IH]; simpl; [reflexivity |].
  rewrite IH. f_equal. now apply pull_absent.
Qed.

Lemma fold_push_members (ids acc : list string) :
  (forall id, In id ids -> In id acc) ->
  fold_left push_unless_included ids acc = acc.
Proof.
  induction ids as [| id rest IH]; simpl; [reflexivity |].
  intros Hall. unfold push_unless_included at 2.
  assert (includes id acc = true) as ->
    by (apply includes_In, Hall; now left).
  simpl. apply IH. intros x Hx. apply Hall. now right.
Qed.

(** X21. Line items that refer only to products the cart already refers to
    add nothing: appending them to the cart leaves the derived list, order
    included, as it was. *)
Theorem getProductsInCart_repeated_items
    (cart : Cart.t) (more : list Cart.LineItem) :
  (forall id, refers_to (Cart.mk more) id -> refers_to cart id) ->
  getProductsInCart_ (Cart.mk (Cart.items cart ++ more))
  = getProductsInCart_ cart.
Proof.
  intros Hsub. rewrite !getProductsInCart_fold.
  unfold referenced_product_ids. simpl.
  rewrite flat_map_app, fold_left_app.
  apply fold_push_members. intros id Hid.
  apply fold_push_In. right.
  apply (referenced_iff cart), Hsub, (referenced_iff (Cart.mk more)).
  exact Hid.
Qed.

(** X22. [fetchCartOptions] returns for no cart and no state of the store.
    It always throws, a [TypeError] of its own fold or the store's error
    when the profile query fails, after exactly one store call, the query
    for the profiles covering the cart's products; the collection is left
    as it was. *)
Theorem fetchCartOptions_never_returns (cart : Cart.t) (w : World) :
  exists e,
    fetchCartOptions cart w = (Throw e, after_find cart w) /\
    ((exists msg, e = TypeError msg) \/ (exists msg, e = StoreFault msg)).
Proof.
  unfold fetchCartOptions, after_find, list_, model_find, store_call.
  unfold bind at 1.
  pose proof (reduce_no_initial_never_array
                (filter (matches (ByProductsIn (getProductsInCart_ cart)))
                   (docs w))) as Hr.
  destruct (faults w) as [| [msg |] later]; cbn [fst snd tl];
    try (eexists; split; [reflexivity | right; now eexists]);
    unfold bind, lift;
    destruct (reduce_no_initial _ _ _) as [[p | ids] | e];
      try contradiction.
  - eexists. split; [reflexivity | left; now eexists].
  - destruct Hr as [m ->]. eexists. split; [reflexivity | left; now eexists].
  - eexists. split; [reflexivity | left; now eexists].
  - destruct Hr as [m ->]. eexists. split; [reflexivity | left; now eexists].
Qed.

(** ** Further properties: [decorate] *)

Lemma read_assign_same (k : string) (v : DecoratedValue) (o : Decorated) :
  read k (assign k v o) = Some v.
Proof.
  induction o as [| [k' v'] rest IH]; simpl.
  - now rewrite String.eqb_refl.
  - destruct (k' =? k) eqn:E; simpl; [now rewrite String.eqb_refl |].
    now rewrite E.
Qed.

Lemma read_assign_other (k k' : string) (v : DecoratedValue)
    (o : Decorated) :
  k' <> k -> read k' (assign k v o) = read k' o.
Proof.
  intros Hne. induction o as [| [k0 v0] rest IH]; simpl.
  - destruct (String.eqb_spec k k'); [congruence | reflexivity].
  - destruct (String.eqb_spec k0 k) as [-> | E]; simpl.
    + destruct (String.eqb_spec k k'); [congruence | reflexivity].
    + destruct (k0 =? k'); [reflexivity | exact IH].
Qed.

Lemma promise_all_map_Return {A B} (f : A -> outcome B) (arr : list A)
    (bs : list B) :
  promise_all_map f arr = Return bs <->
  Forall2 (fun x b => f x = Return b) arr bs.
Proof.
  revert bs. induction arr as [| x rest IH]; intros bs; simpl.
  - split.
    + intros H. injection H as <-. constructor.
    + intros H. inversion H. reflexivity.
  - destruct (f x) as [b | e] eqn:Ex.
    + destruct (promise_all_map f rest) as [bs' | e'].
      * split.
        -- intros H. injection H as <-. constructor; [assumption |].
           now apply IH.
        -- intros H. inversion H as [| x0 b0 l l' Hb Hrest]; subst.
           apply IH in Hrest. injection Hrest as <-.
           rewrite Ex in Hb. now injection Hb as <-.
      * split; [discriminate |].
        intros H. inversion H as [| x0 b0 l l' Hb Hrest]; subst.
        apply IH in Hrest. discriminate.
    + split; [discriminate |].
      intros H. inversion H as [| x0 b0 l l' Hb Hrest]; subst.
      rewrite Ex in Hb. discriminate.
Qed.

Lemma promise_all_map_Throw {A B} (f : A -> outcome B) (arr : list A)
    (e : Error) :
  promise_all_map f arr = Throw e -> exists x, In x arr /\ f x = Throw e.
Proof.
  induction arr as [| x rest IH]; simpl; [discriminate |].
  destruct (f x) as [b | e0] eqn:Ex.
  - destruct (promise_all_map f rest) as [bs' | e'];
      [discriminate |].
    intros H. injection H as ->.
    destruct (IH eq_refl) as [y [Hy Hfy]]. exists y. split;
      [now right | assumption].
  - intros H. injection H as ->. exists x. split; [now left | assumption].
Qed.

Lemma promise_all_map_fails {A B} (f : A -> outcome B) (arr : list A)
    (x : A) (e : Error) :
  In x arr -> f x = Throw e ->
  exists e', promise_all_map f arr = Throw e'.
Proof.
  intros Hin Hx. destruct (promise_all_map f arr) as [bs | e'] eqn:E;
    [| now exists e'].
  apply promise_all_map_Return in E. exfalso.
  revert Hin. induction E as [| y b l l' Hy Hrest IH]; [intros [] |].
  intros [-> | Hin]; [congruence | now apply IH].
Qed.

(** X23. When [decorate] returns, a requested expansion has put resolved
    records in place of the ids: one record per id of the profile's list,
    in the list's order, each the record the collaborator returns for that
    id.  This holds whether or not the field was among the fields asked
    for. *)
Theorem decorate_expands_in_order
    (profile : Profile.t) (fields expandFields : list string)
    (decorated : Decorated) :
  decorate profile fields expandFields = Return decorated ->
  (In "products" expandFields ->
   exists records,
     read "products" decorated = Some (ProductRecords records) /\
     Forall2 (fun id record => productService_retrieve id = Return record)
       (Profile.products profile) records) /\
  (In "shipping_options" expandFields ->
   exists records,
     read "shipping_options" decorated = Some (OptionRecords records) /\
     Forall2 (fun id record =>
                shippingOptionService_retrieve id = Return record)
       (Profile.shipping_options profile) records).
Proof.
  unfold decorate.
  destruct (includes "products" expandFields) eqn:Ep.
  - destruct (promise_all_map productService_retrieve _) as [ps | e] eqn:Eps;
      [| discriminate].
    apply promise_all_map_Return in Eps.
    destruct (includes "shipping_options" expandFields) eqn:Eo.
    + destruct (promise_all_map shippingOptionService_retrieve _)
        as [os | e] eqn:Eos; [| discriminate].
      apply promise_all_map_Return in Eos.
      intros H. injection H as <-. split; intros _.
      * exists ps. split; [| assumption].
        rewrite read_assign_other by discriminate. apply read_assign_same.
      * exists os. split; [apply read_assign_same | assumption].
    + intros H. injection H as <-. split.
      * intros _. exists ps. split; [apply read_assign_same | assumption].
      * intros Hin. apply includes_In in Hin. congruence.
  - destruct (includes "shipping_options" expandFields) eqn:Eo.
    + destruct (promise_all_map shippingOptionService_retrieve _)
        as [os | e] eqn:Eos; [| discriminate].
      apply promise_all_map_Return in Eos.
      intros H. injection H as <-. split.
      * intros Hin. apply includes_In in Hin. congruence.
      * intros _. exists os. split; [apply read_assign_same | assumption].
    + intros H. injection H as <-.
      split; intros Hin; apply includes_In in Hin; congruence.
Qed.

(** X24. [decorate] swallows no resolution failure.  Whatever it throws is
    the error of a collaborator for an id in a list whose expansion was
    requested; and when the products are to be expanded and the product
    service rejects one of the profile's product ids, [decorate] throws. *)
Theorem decorate_propagates_failures
    (profile : Profile.t) (fields expandFields : list string) :
  (forall e,
     decorate profile fields expandFields = Throw e ->
     (In "products" expandFields /\
      exists id, In id (Profile.products profile) /\
                 productService_retrieve id = Throw e) \/
     (In "shipping_options" expandFields /\
      exists id, In id (Profile.shipping_options profile) /\
                 shippingOptionService_retrieve id = Throw e)) /\
  (forall id e,
     In "products" expandFields ->
     In id (Profile.products profile) ->
     productService_retrieve id = Throw e ->
     exists e', decorate profile fields expandFields = Throw e') /\
  (forall id e,
     In "shipping_options" expandFields ->
     In id (Profile.shipping_options profile) ->
     shippingOptionService_retrieve id = Throw e ->
     exists e', decorate profile fields expandFields = Throw e').
Proof.
  split; [| split].
  - intros e. unfold decorate.
    destruct (includes "products" expandFields) eqn:Ep.
    + destruct (promise_all_map productService_retrieve _) as [ps | e0]
        eqn:Eps.
      * destruct (includes "shipping_options" expandFields) eqn:Eo;
          [| discriminate].
        destruct (promise_all_map shippingOptionService_retrieve _)
          as [os | e1] eqn:Eos; [discriminate |].
        intros H. injection H as ->. right.
        split; [now apply includes_In |].
        now apply promise_all_map_Throw.
      * intros H. injection H as ->. left.
        split; [now apply includes_In |].
        now apply promise_all_map_Throw.
    + destruct (includes "shipping_options" expandFields) eqn:Eo;
        [| discriminate].
      destruct (promise_all_map shippingOptionService_retrieve _)
        as [os | e1] eqn:Eos; [discriminate |].
      intros H. injection H as ->. right.
      split; [now apply includes_In |].
      now apply promise_all_map_Throw.
  - intros id e Hexp Hin Hfail. unfold decorate.
    apply includes_In in Hexp. rewrite Hexp.
    destruct (promise_all_map_fails _ _ _ _ Hin Hfail) as [e' ->].
    now exists e'.
  - intros id e Hexp Hin Hfail. unfold decorate.
    apply includes_In in Hexp. rewrite Hexp.
    destruct (promise_all_map_fails _ _ _ _ Hin Hfail) as [e' ->].
    destruct (includes "products" expandFields).
    + destruct (promise_all_map productService_retrieve _) as [ps | e0];
        eexists; reflexivity.
    + now exists e'.
Qed.

(** X25. Expansion touches nothing but the two expandable properties: every
    other property of a decorated profile ([_id], [metadata], [name], ...)
    reads as [pick] produced it for the requested fields followed by
    [_id] and [metadata]; with no expansion requested the result is that
    pick itself. *)
Theorem decorate_keeps_picked_properties
    (profile : Profile.t) (fields expandFields : list string)
    (decorated : Decorated) :
  decorate profile fields expandFields = Return decorated ->
  (forall k, k <> "products" -> k <> "shipping_options" ->
             read k decorated
             = read k (pick profile (fields ++ ["_id"; "metadata"]))) /\
  (~ In "products" expandFields ->
   ~ In "shipping_options" expandFields ->
   decorated = pick profile (fields ++ ["_id"; "metadata"])).
Proof.
  unfold decorate.
  destruct (includes "products" expandFields) eqn:Ep;
    [destruct (promise_all_map productService_retrieve _) as [ps | e];
       [| discriminate] |];
    (destruct (includes "shipping_options" expandFields) eqn:Eo;
       [destruct (promise_all_map shippingOptionService_retrieve _)
          as [os | e']; [| discriminate] |]);
    intros H; injection H as <-; split;
    try (intros k Hk1 Hk2;
         repeat rewrite read_assign_other by assumption; reflexivity);
    intros Hn1 Hn2;
    try (exfalso; apply Hn1; now apply includes_In);
    try (exfalso; apply Hn2; now apply includes_In);
    reflexivity.
Qed.

End ShippingProfileService.

(** ** The sample deployment, run *)

Example getProductsInCart_mixed :
  getProductsInCart_ Sample.cart_mixed
  = ["product-0001"; "product-0002"; "product-0003"].
Proof. reflexivity. Qed.

Lemma getProductsInCart_distinct_witness :
  NoDup (getProductsInCart_ Sample.cart_mixed) /\
  count_occ string_dec (getProductsInCart_ Sample.cart_mixed) "product-0003"
  = 1.
Proof.
  destruct (getProductsInCart_distinct Sample.cart_mixed) as (Hnd & Hin & Hc).
  split; [exact Hnd |].
  apply Hc, Hin. vm_compute. right. right. now left.
Defined.

Lemma malformed_id_invalid_argument_witness :
  error (Sample.objectId_validate "default") <> None /\
  exists msg,
    retrieve Sample.objectId_validate "default" Sample.world
    = (Throw (MedusaError INVALID_ARGUMENT msg), Sample.world) /\
    update Sample.objectId_validate Sample.apply_set "default"
      [("name", JStr "renamed")] Sample.world
    = (Throw (MedusaError INVALID_ARGUMENT msg), Sample.world) /\
    setMetadata Sample.objectId_validate Sample.apply_set "default"
      (JStr "colour") (JStr "red") Sample.world
    = (Throw (MedusaError INVALID_ARGUMENT msg), Sample.world).
Proof.
  split; [simpl; discriminate |].
  apply (malformed_id_invalid_argument Sample.objectId_validate
           Sample.apply_set "default").
  simpl. discriminate.
Defined.

(** With a malformed id [update] answers [INVALID_ARGUMENT] although the
    update sets [metadata]; with a well-formed id and [metadata: null] it
    throws nothing and the update reaches the store. *)
Lemma update_guard_counterexample :
  update Sample.objectId_validate Sample.apply_set "default"
    [("metadata", JObj [("colour", JStr "red")])] Sample.world
  = (Throw (MedusaError INVALID_ARGUMENT
              "The profileId could not be casted to an ObjectId"),
     Sample.world) /\
  update Sample.objectId_validate Sample.apply_set "profile-aaaa"
    [("metadata", JNull)] Sample.world
  = (Return (mkWrite 1),
     mkWorld [Sample.default1; Sample.default2; Sample.spare] []
       [UpdateOne (ById "profile-aaaa") (Set_ [("metadata", JNull)])]).
Proof. split; reflexivity. Qed.

Lemma update_rejects_truthy_guarded_fields_witness :
  error (Sample.objectId_validate "profile-aaaa") = None /\
  (exists msg,
     update Sample.objectId_validate Sample.apply_set "profile-aaaa"
       [("metadata", JObj [("colour", JStr "red")])] Sample.world
     = (Throw (MedusaError INVALID_DATA msg), Sample.world)) /\
  (exists msg,
     update Sample.objectId_validate Sample.apply_set "profile-aaaa"
       [("products", JArr [JStr "product-0001"])] Sample.world
     = (Throw (MedusaError INVALID_DATA msg), Sample.world)) /\
  (exists msg,
     update Sample.objectId_validate Sample.apply_set "profile-aaaa"
       [("shipping_options", JArr [])] Sample.world
     = (Throw (MedusaError INVALID_DATA msg), Sample.world)).
Proof.
  split; [reflexivity |].
  destruct (update_rejects_truthy_guarded_fields Sample.objectId_validate
              Sample.apply_set "profile-aaaa" Sample.world eq_refl)
    as (_ & Hm & Hp & Hs).
  split; [| split]; [apply Hm | apply Hp | apply Hs].
Defined.

Lemma update_passes_falsy_guarded_fields_witness :
  (forall msg,
     fst (update Sample.objectId_validate Sample.apply_set "profile-aaaa"
            [("metadata", JNull)] Sample.world)
     <> Throw (MedusaError INVALID_DATA msg)) /\
  log (snd (update Sample.objectId_validate Sample.apply_set "profile-aaaa"
              [("products", JNum 0)] Sample.world))
  = [UpdateOne (ById "profile-aaaa") (Set_ [("products", JNum 0)])] /\
  log (snd (update Sample.objectId_validate Sample.apply_set "profile-aaaa"
              [("shipping_options", JStr "")] Sample.world))
  = [UpdateOne (ById "profile-aaaa") (Set_ [("shipping_options", JStr "")])].
Proof.
  split; [| split].
  - exact (proj2 (proj2
      (update_passes_falsy_guarded_fields Sample.objectId_validate
         Sample.apply_set "profile-aaaa" [("metadata", JNull)]
         Sample.world eq_refl eq_refl eq_refl eq_refl))).
  - exact (proj1 (proj2
      (update_passes_falsy_guarded_fields Sample.objectId_validate
         Sample.apply_set "profile-aaaa" [("products", JNum 0)]
         Sample.world eq_refl eq_refl eq_refl eq_refl))).
  - exact (proj1 (proj2
      (update_passes_falsy_guarded_fields Sample.objectId_validate
         Sample.apply_set "profile-aaaa" [("shipping_options", JStr "")]
         Sample.world eq_refl eq_refl eq_refl eq_refl))).
Defined.

(** The lookup of an existing profile hits a store fault: [retrieve]
    throws [DB_ERROR], [delete] resolves, and the profile is still there.
    A malformed id, too, makes [delete] resolve. *)
Lemma delete_swallows_lookup_fault :
  let w' :=
    mkWorld [Sample.default1; Sample.default2; Sample.spare] []
      [FindOne (ById "profile-aaaa")] in
  retrieve Sample.objectId_validate "profile-aaaa" Sample.faulty_world
  = (Throw (MedusaError DB_ERROR "connection reset"), w') /\
  delete Sample.objectId_validate "profile-aaaa" Sample.faulty_world
  = (Return None, w') /\
  delete Sample.objectId_validate "default" Sample.world
  = (Return None, Sample.world).
Proof. repeat split. Qed.

Lemma delete_outcomes_witness :
  delete Sample.objectId_validate "profile-aaaa" Sample.faulty_world
  = (Return None,
     mkWorld [Sample.default1; Sample.default2; Sample.spare] []
       [FindOne (ById "profile-aaaa")]) /\
  delete Sample.objectId_validate "profile-aaaa"
    (mkWorld [Sample.default1] [None; Some "disk full"] [])
  = (Throw (MedusaError DB_ERROR "disk full"),
     mkWorld [Sample.default1] []
       [FindOne (ById "profile-aaaa"); DeleteOne (ById "profile-aaaa")]) /\
  delete Sample.objectId_validate "profile-aaaa" Sample.world
  = (Return (Some (mkWrite 1)),
     mkWorld [Sample.default2; Sample.spare] []
       [FindOne (ById "profile-aaaa"); DeleteOne (ById "profile-aaaa")]).
Proof.
  split; [| split].
  - exact (proj1
      (delete_outcomes Sample.objectId_validate "profile-aaaa"
         Sample.faulty_world _ _ eq_refl)
      (MedusaError DB_ERROR "connection reset") eq_refl).
  - exact (proj1 (proj2
      (delete_outcomes Sample.objectId_validate "profile-aaaa"
         (mkWorld [Sample.default1] [None; Some "disk full"] []) _ _
         eq_refl))
      Sample.default1 "disk full" [] eq_refl eq_refl).
  - exact (proj2 (proj2
      (delete_outcomes Sample.objectId_validate "profile-aaaa"
         Sample.world _ _ eq_refl))
      Sample.default1 eq_refl eq_refl).
Defined.

Lemma fetchCartOptions_no_match_throws_witness :
  fetchCartOptions Sample.shippingOptionService_validateCartOption
    Sample.cart_unmatched Sample.world
  = (Throw (TypeError "Reduce of empty array with no initial value"),
     mkWorld [Sample.default1; Sample.default2; Sample.spare] []
       [Find (ByProductsIn ["product-0009"])]).
Proof.
  apply (fetchCartOptions_no_match_throws
           Sample.shippingOptionService_validateCartOption
           Sample.cart_unmatched Sample.world); reflexivity.
Defined.

Lemma fetchCartOptions_match_throws_witness :
  matched_profiles Sample.cart_both Sample.world
  = [Sample.default1; Sample.default2] /\
  fetchCartOptions Sample.shippingOptionService_validateCartOption
    Sample.cart_both Sample.world
  = (Throw (TypeError "acc.concat is not a function"),
     mkWorld [Sample.default1; Sample.default2; Sample.spare] []
       [Find (ByProductsIn ["product-0001"; "product-0002"])]).
Proof.
  split; [reflexivity |].
  apply (fetchCartOptions_match_throws
           Sample.shippingOptionService_validateCartOption
           Sample.cart_both Sample.world); [reflexivity | discriminate].
Defined.

(** One matching profile: the fold hands back the profile document. *)
Example fetchCartOptions_single_match :
  fetchCartOptions Sample.shippingOptionService_validateCartOption
    (Cart.mk [Sample.item "product-0001"]) Sample.world
  = (Throw (TypeError "optionIds.map is not a function"),
     mkWorld [Sample.default1; Sample.default2; Sample.spare] []
       [Find (ByProductsIn ["product-0001"])]).
Proof. reflexivity. Qed.

Lemma validation_failure_drops_only_that_option_witness :
  settle_options Sample.shippingOptionService_validateCartOption
    (Cart.mk []) (RArray ["option-fran2"; "option-free1"]) Sample.world
  = (Return [Sample.freeShipping], Sample.world).
Proof.
  apply (validation_failure_drops_only_that_option
           Sample.shippingOptionService_validateCartOption (Cart.mk [])
           "option-fran2" "option-free1"
           (MedusaError INVALID_DATA
              "The shipping option is not available for the cart")
           Sample.freeShipping Sample.world); reflexivity.
Defined.

(** "product-0001" is added to the spare profile twice. *)
Lemma membership_mutation_idempotent_witness :
  let once :=
    addProduct Sample.objectId_validate Sample.productService_retrieve
      Sample.apply_set "profile-cccc" "product-0001" Sample.world in
  Profile.products
    (nth 2 (docs (snd once)) Sample.default1) = ["product-0001"] /\
  docs (snd (addProduct Sample.objectId_validate
               Sample.productService_retrieve Sample.apply_set
               "profile-cccc" "product-0001" (snd once)))
  = docs (snd once).
Proof.
  split; [reflexivity |].
  refine (proj1
    (membership_mutation_idempotent Sample.objectId_validate
       Sample.productService_retrieve Sample.apply_set
       "profile-cccc" "product-0001" Sample.world _)
    (Some (mkWrite 1)) _ eq_refl).
  intros product H. vm_compute in H. injection H as <-. discriminate.
Defined.

(** "Free Shipping" sits in "default1"; it is assigned to the spare profile
    and then to "default2". *)
Lemma option_exclusive_after_reassignment_witness :
  let add :=
    addShippingOption Sample.objectId_validate
      Sample.shippingOptionService_retrieve Sample.apply_set in
  let wA := snd (add "profile-cccc" "option-free1" Sample.world) in
  let wB := snd (add "profile-bbbb" "option-free1" wA) in
  profile_holds "profile-bbbb" "option-free1" (docs wB) = true /\
  profile_holds "profile-cccc" "option-free1" (docs wB) = false /\
  List.length (holders "option-free1" (docs wB)) = 1.
Proof.
  intros add wA wB.
  assert (unique_ids (docs Sample.world)) as Hu.
  { unfold unique_ids. simpl.
    repeat (constructor;
            [simpl; intros H;
             repeat (destruct H as [H | H]; [discriminate H |]); exact H |]).
    constructor. }
  assert (exclusive "option-free1" (docs Sample.world)) as Hex.
  { unfold exclusive. simpl. lia. }
  assert ("profile-cccc" <> "profile-bbbb") as Hne by discriminate.
  destruct (option_exclusive_after_reassignment Sample.objectId_validate
              Sample.shippingOptionService_retrieve Sample.apply_set
              "profile-cccc" "profile-bbbb" "option-free1"
              Sample.freeShipping Sample.world
              eq_refl Hu Hex eq_refl eq_refl Hne) as [Hpost _].
  destruct (Hpost (Some (mkWrite 1)) wA (Some (mkWrite 1)) wB
              eq_refl eq_refl) as (HB & HA & _ & Hone & _).
  exact (conj HB (conj HA Hone)).
Defined.

(** ** The sample deployment, run on the further properties *)

Lemma sample_unique_ids : unique_ids (docs Sample.world).
Proof.
  unfold unique_ids. simpl.
  repeat (constructor;
          [simpl; intros H;
           repeat (destruct H as [H | H]; [discriminate H |]); exact H |]).
  constructor.
Qed.

Lemma sample_stored_ids_valid :
  stored_ids_valid Sample.objectId_validate (docs Sample.world).
Proof.
  intros id [<- | [<- | [<- | []]]]; split; reflexivity.
Qed.

Lemma sample_no_fourth_profile (p : Profile.t) :
  In p (docs Sample.world) -> Profile._id p <> "profile-dddd".
Proof. intros [<- | [<- | [<- | []]]]; discriminate. Qed.

Lemma retrieve_outcomes_witness :
  docs (snd (retrieve Sample.objectId_validate "profile-aaaa" Sample.world))
  = docs Sample.world /\
  In Sample.default1 (docs Sample.world).
Proof.
  destruct (retrieve_outcomes Sample.objectId_validate "profile-aaaa"
              Sample.world _ _ eq_refl) as (Hd & _ & Hin & _).
  exact (conj Hd Hin).
Defined.

Lemma retrieve_not_found_iff_witness :
  fst (retrieve Sample.objectId_validate "profile-dddd" Sample.world)
  = Throw (MedusaError NOT_FOUND
             "Shipping Profile with profile-dddd was not found").
Proof.
  apply (proj1 (retrieve_not_found_iff Sample.objectId_validate
                  "profile-dddd" Sample.world eq_refl eq_refl)).
  exact sample_no_fourth_profile.
Defined.

Lemma storage_fault_becomes_db_error_witness :
  update Sample.objectId_validate Sample.apply_set "profile-aaaa"
    [("name", JStr "renamed")] Sample.faulty_world
  = (Throw (MedusaError DB_ERROR "connection reset"),
     mkWorld [Sample.default1; Sample.default2; Sample.spare] []
       [UpdateOne (ById "profile-aaaa") (Set_ [("name", JStr "renamed")])]).
Proof.
  exact (proj1 (proj2
    (storage_fault_becomes_db_error Sample.objectId_validate
       Sample.apply_set "profile-aaaa" "colour" [("name", JStr "renamed")]
       (JStr "red") Sample.faulty_world "connection reset" []
       eq_refl eq_refl eq_refl eq_refl eq_refl))).
Defined.

Lemma update_unknown_profile_resolves_witness :
  exists w1,
    update Sample.objectId_validate Sample.apply_set "profile-dddd"
      [("name", JStr "renamed")] Sample.world = (Return (mkWrite 0), w1) /\
    docs w1 = docs Sample.world.
Proof.
  apply (update_unknown_profile_resolves Sample.objectId_validate
           Sample.apply_set "profile-dddd" [("name", JStr "renamed")]
           Sample.world); try reflexivity.
  exact sample_no_fourth_profile.
Defined.

Lemma setMetadata_key_must_be_string_witness :
  setMetadata Sample.objectId_validate Sample.apply_set "profile-aaaa"
    (JNum 7) (JStr "red") Sample.world
  = (Throw (MedusaError INVALID_ARGUMENT
              "Key type is invalid. Metadata keys must be strings"),
     Sample.world).
Proof.
  apply (setMetadata_key_must_be_string Sample.objectId_validate
           Sample.apply_set "profile-aaaa" (JNum 7) (JStr "red")
           Sample.world); [reflexivity |].
  intros s. discriminate.
Defined.

Lemma delete_removes_the_profile_witness :
  docs (snd (delete Sample.objectId_validate "profile-bbbb" Sample.world))
  = [Sample.default1; Sample.spare].
Proof.
  exact (proj1
    (delete_removes_the_profile Sample.objectId_validate "profile-bbbb"
       Sample.world _ (mkWrite 1) sample_unique_ids eq_refl)).
Defined.

Lemma delete_twice_witness :
  exists w2,
    delete Sample.objectId_validate "profile-bbbb"
      (snd (delete Sample.objectId_validate "profile-bbbb" Sample.world))
    = (Return None, w2) /\
    docs w2 = [Sample.default1; Sample.spare].
Proof.
  exact (delete_twice Sample.objectId_validate "profile-bbbb"
           Sample.world _ (mkWrite 1) sample_unique_ids eq_refl).
Defined.

Lemma delete_throws_only_db_error_witness :
  (exists msg, MedusaError DB_ERROR "disk full" = MedusaError DB_ERROR msg) /\
  docs (snd (delete Sample.objectId_validate "profile-aaaa"
               (mkWorld [Sample.default1] [None; Some "disk full"] [])))
  = [Sample.default1].
Proof.
  exact (delete_throws_only_db_error Sample.objectId_validate "profile-aaaa"
           (mkWorld [Sample.default1] [None; Some "disk full"] []) _ _
           eq_refl).
Defined.

Lemma addProduct_adds_member_witness :
  touches_only "profile-cccc" (docs Sample.world)
    (docs (snd (addProduct Sample.objectId_validate
                  Sample.productService_retrieve Sample.apply_set
                  "profile-cccc" "product-0001" Sample.world))).
Proof.
  exact (proj2
    (addProduct_adds_member Sample.objectId_validate
       Sample.productService_retrieve Sample.apply_set
       "profile-cccc" "product-0001" Sample.world _ (Some (mkWrite 1))
       eq_refl)).
Defined.

Lemma removeProduct_removes_member_witness :
  exists profile,
    find (matches (ById "profile-aaaa"))
      (docs (snd (removeProduct Sample.objectId_validate Sample.apply_set
                    "profile-aaaa" "product-0001" Sample.world)))
    = Some profile /\
    ~ In "product-0001" (Profile.products profile).
Proof.
  apply (proj1
    (removeProduct_removes_member Sample.objectId_validate Sample.apply_set
       "profile-aaaa" "product-0001" Sample.world _ (Some (mkWrite 1))
       eq_refl)).
  discriminate.
Defined.

Lemma addProduct_then_removeProduct_witness :
  let wA :=
    snd (addProduct Sample.objectId_validate Sample.productService_retrieve
           Sample.apply_set "profile-cccc" "product-0001" Sample.world) in
  docs (snd (removeProduct Sample.objectId_validate Sample.apply_set
               "profile-cccc" "product-0001" wA))
  = docs Sample.world.
Proof.
  intros wA.
  apply (addProduct_then_removeProduct Sample.objectId_validate
           Sample.productService_retrieve Sample.apply_set
           "profile-cccc" "product-0001" Sample.world wA _
           (Some (mkWrite 1)) (Some (mkWrite 1)));
    try reflexivity; try discriminate.
  intros profile H. vm_compute in H. injection H as <-. intros [].
Defined.

Lemma membership_write_fault_not_wrapped_witness :
  exists w1,
    removeShippingOption Sample.objectId_validate Sample.apply_set
      "profile-aaaa" "option-free1"
      (mkWorld [Sample.default1] [None; Some "disk full"] [])
    = (Throw (StoreFault "disk full"), w1) /\
    docs w1 = [Sample.default1].
Proof.
  exact (proj1
    (membership_write_fault_not_wrapped Sample.objectId_validate
       Sample.productService_retrieve Sample.apply_set
       "profile-aaaa" "option-free1"
       (mkWorld [Sample.default1] [None; Some "disk full"] []) _
       Sample.default1 "disk full" [] eq_refl eq_refl)).
Defined.

Lemma membership_operations_fail_before_writing_witness :
  addShippingOption Sample.objectId_validate
    Sample.shippingOptionService_retrieve Sample.apply_set
    "profile-aaaa" "option-none9" Sample.world
  = (Throw (MedusaError NOT_FOUND "Shipping Option was not found"),
     mkWorld [Sample.default1; Sample.default2; Sample.spare] []
       [FindOne (ById "profile-aaaa")]).
Proof.
  exact (proj2
    (membership_operations_fail_before_writing Sample.objectId_validate
       Sample.productService_retrieve Sample.shippingOptionService_retrieve
       Sample.apply_set "profile-aaaa" "option-none9" Sample.world _
       (Return Sample.default1) eq_refl)
    (MedusaError NOT_FOUND "Shipping Option was not found") eq_refl).
Defined.

Lemma removeShippingOption_removes_witness :
  profile_holds "profile-aaaa" "option-free1"
    (docs (snd (removeShippingOption Sample.objectId_validate
                  Sample.apply_set "profile-aaaa" "option-free1"
                  Sample.world)))
  = false.
Proof.
  exact (proj1
    (removeShippingOption_removes Sample.objectId_validate Sample.apply_set
       "profile-aaaa" "option-free1" Sample.world _ (mkWrite 1) eq_refl)).
Defined.

Lemma removeShippingOption_idempotent_witness :
  docs (snd (removeShippingOption Sample.objectId_validate Sample.apply_set
               "profile-cccc" "option-free1" Sample.world))
  = docs Sample.world.
Proof.
  exact (proj1
    (removeShippingOption_idempotent Sample.objectId_validate
       Sample.apply_set "profile-cccc" "option-free1" Sample.world)
    eq_refl).
Defined.

Lemma addShippingOption_idempotent_witness :
  let add :=
    addShippingOption Sample.objectId_validate
      Sample.shippingOptionService_retrieve Sample.apply_set
      "profile-cccc" "option-free1" in
  docs (snd (add (snd (add Sample.world)))) = docs (snd (add Sample.world)).
Proof.
  intros add.
  refine (proj2
    (addShippingOption_idempotent Sample.objectId_validate
       Sample.shippingOptionService_retrieve Sample.apply_set
       "profile-cccc" "option-free1" Sample.freeShipping Sample.world
       (snd (add Sample.world)) (Some (mkWrite 1))
       eq_refl _ eq_refl eq_refl)).
  discriminate.
Defined.

Lemma addShippingOption_fault_after_detach_witness :
  exists w1,
    addShippingOption Sample.objectId_validate
      Sample.shippingOptionService_retrieve Sample.apply_set
      "profile-cccc" "option-free1"
      (mkWorld [Sample.default1; Sample.default2; Sample.spare]
         [None; None; None; None; Some "disk full"] [])
    = (Throw (StoreFault "disk full"), w1) /\
    holders "option-free1" (docs w1) = [] /\
    faults w1 = [].
Proof.
  apply (addShippingOption_fault_after_detach Sample.objectId_validate
           Sample.shippingOptionService_retrieve Sample.apply_set
           "profile-cccc" "option-free1" Sample.freeShipping
           Sample.default1
           (mkWorld [Sample.default1; Sample.default2; Sample.spare]
              [None; None; None; None; Some "disk full"] [])
           "disk full" []);
    try reflexivity.
  - exact sample_unique_ids.
  - exact sample_stored_ids_valid.
  - simpl. right. right. now left.
  - discriminate.
Defined.

Lemma getProductsInCart_first_occurrence_order_witness :
  getProductsInCart_ Sample.cart_both = ["product-0001"; "product-0002"].
Proof.
  apply (proj2 (getProductsInCart_first_occurrence_order Sample.cart_both)).
  simpl.
  repeat (constructor;
          [simpl; intros H;
           repeat (destruct H as [H | H]; [discriminate H |]); exact H |]).
  constructor.
Defined.

Lemma getProductsInCart_repeated_items_witness :
  getProductsInCart_
    (Cart.mk (Cart.items Sample.cart_mixed
              ++ [Sample.item "product-0002";
                  Sample.bundle ["product-0003"; "product-0001"]]))
  = getProductsInCart_ Sample.cart_mixed.
Proof.
  apply (getProductsInCart_repeated_items Sample.cart_mixed).
  intros id H. apply referenced_iff. apply referenced_iff in H.
  simpl in H. simpl.
  destruct H as [<- | [<- | [<- | []]]]; auto 6.
Defined.

Lemma decorate_expands_in_order_witness :
  exists records,
    read "products"
      (assign "products" (ProductRecords [Product.mk "product-0001"])
         (Sample.pick Sample.default1 ["name"; "_id"; "metadata"]))
    = Some (ProductRecords records) /\
    Forall2 (fun id record =>
               Sample.productService_retrieve id = Return record)
      (Profile.products Sample.default1) records.
Proof.
  apply (proj1
    (decorate_expands_in_order Sample.productService_retrieve
       Sample.shippingOptionService_retrieve Sample.pick
       Sample.default1 ["name"] ["products"] _ eq_refl)).
  now left.
Defined.

Lemma decorate_propagates_failures_witness :
  exists e,
    decorate Sample.productService_retrieve
      Sample.shippingOptionService_retrieve Sample.pick
      (Profile.mk "profile-eeee" "broken" ["product-0001"; "gone"] [] [])
      ["name"] ["products"]
    = Throw e.
Proof.
  apply (proj1 (proj2
    (decorate_propagates_failures Sample.productService_retrieve
       Sample.shippingOptionService_retrieve Sample.pick
       (Profile.mk "profile-eeee" "broken" ["product-0001"; "gone"] [] [])
       ["name"] ["products"]))
    "gone"
    (MedusaError INVALID_ARGUMENT
       "The productId could not be casted to an ObjectId")).
  - now left.
  - right. now left.
  - reflexivity.
Defined.

Lemma decorate_keeps_picked_properties_witness :
  read "_id"
    (assign "products" (ProductRecords [Product.mk "product-0001"])
       (Sample.pick Sample.default1 ["name"; "_id"; "metadata"]))
  = Some (Picked (JStr "profile-aaaa")).
Proof.
  refine (eq_trans
    (proj1
      (decorate_keeps_picked_properties Sample.productService_retrieve
         Sample.shippingOptionService_retrieve Sample.pick
         Sample.default1 ["name"] ["products"] _ eq_refl)
      "_id" _ _) eq_refl); discriminate.
Defined.

(** Both sample profiles match the cart; "Free Shipping" passes the
    validation and "Free French Shipping" fails it. *)
Lemma fetchCartOptions_partial_validation_throws_witness :
  candidate_option_ids Sample.cart_both Sample.world
  = ["option-free1"; "option-fran2"] /\
  fetchCartOptions Sample.validateCartOption_no_french Sample.cart_both
    Sample.world
  = (Throw (TypeError "acc.concat is not a function"),
     mkWorld [Sample.default1; Sample.default2; Sample.spare] []
       [Find (ByProductsIn ["product-0001"; "product-0002"])]) /\
  fst (fetchCartOptions Sample.validateCartOption_no_french Sample.cart_both
         Sample.world)
  <> Return [Sample.freeShipping].
Proof.
  split; [reflexivity |]. split; [reflexivity |].
  apply (fetchCartOptions_partial_validation_throws
           Sample.validateCartOption_no_french Sample.cart_both Sample.world
           "option-fran2" "option-free1"
           (MedusaError INVALID_DATA
              "The shipping option is not available for the cart")
           Sample.freeShipping).
  - reflexivity.
  - simpl. right. now left.
  - simpl. now left.
  - reflexivity.
  - reflexivity.
Defined.
